(** * Federal transfers pipeline: a shallow embedding of
      [src/canada_major_transfers/main.py]

    The development follows the source file top to bottom: the string
    operations of Python that the code calls, the few pandas operations it
    uses on data frames, then [extract_province_name], [clean_table],
    [aggregate_data], the module-level pipeline and the query functions
    [build_long_dataframe] and [update_graph].

    Conventions:
    - a Python [str] is a [string] whose characters are code points below
      256;
    - a number held in a cell is an integer ([Z]); the library parser
      [pd.to_numeric] is a parameter of the development;
    - a raised exception is the [Raise] case of [result];
    - [clean_table] and [aggregate_data] are given twice: on frame values,
      and in store-passing style over a heap of frames, where the
      assignments [df[col] = ...] update the frame that [df] refers to. *)

From Stdlib Require Import String Ascii List ZArith Lia Bool Arith DecimalString.
Import ListNotations.
Local Open Scope string_scope.
Local Open Scope list_scope.
Local Open Scope nat_scope.

(** ** Exceptions and results *)

Inductive exn : Type :=
| IndexError
| KeyError
| ValueError
| AttributeError.

Inductive result (A : Type) : Type :=
| Ok (a : A)
| Raise (e : exn).

Arguments Ok {A} a.
Arguments Raise {A} e.

Definition rbind {A B : Type} (r : result A) (k : A -> result B) : result B :=
  match r with
  | Ok a => k a
  | Raise e => Raise e
  end.

Notation "x <- r ;; k" := (rbind r (fun x => k))
  (at level 61, r at next level, right associativity).

(** [for x in xs: s = body(x, s)], stopping at the first exception. *)
Fixpoint for_each {A S : Type} (xs : list A) (body : A -> S -> result S) (s : S)
  : result S :=
  match xs with
  | [] => Ok s
  | x :: xs' => s' <- body x s ;; for_each xs' body s'
  end.

(** ** Characters and the [str] methods used by the code *)

Definition newline : ascii := "010"%char.

(** [str.isspace] on one character (also the class [\s] of [re]). *)
Definition isspace (c : ascii) : bool :=
  let n := nat_of_ascii c in
  ((9 <=? n) && (n <=? 13)) || ((28 <=? n) && (n <=? 32))
  || (n =? 133) || (n =? 160).

(** The class [\d] of [re]. *)
Definition isdigit (c : ascii) : bool :=
  let n := nat_of_ascii c in (48 <=? n) && (n <=? 57).

Definition lower_char (c : ascii) : ascii :=
  let n := nat_of_ascii c in
  if ((65 <=? n) && (n <=? 90))
     || ((192 <=? n) && (n <=? 222) && negb (n =? 215))
  then ascii_of_nat (n + 32) else c.

(** [s.lower()] *)
Fixpoint lower (s : string) : string :=
  match s with
  | "" => ""
  | String c s' => String (lower_char c) (lower s')
  end.

(** [s.lstrip()], [s.rstrip()] and [s.strip()] *)
Fixpoint lstrip (s : string) : string :=
  match s with
  | "" => ""
  | String c s' => if isspace c then lstrip s' else s
  end.

Fixpoint rstrip (s : string) : string :=
  match s with
  | "" => ""
  | String c s' =>
      match rstrip s' with
      | "" => if isspace c then "" else String c ""
      | r => String c r
      end
  end.

Definition strip (s : string) : string := lstrip (rstrip s).

(** [sub in s] *)
Fixpoint contains (sub s : string) : bool :=
  prefix sub s ||
  match s with
  | "" => false
  | String _ s' => contains sub s'
  end.

(** [s.replace(old, new)] for a non-empty [old]: the occurrences are taken
    from the left and do not overlap.  [skip] counts the characters of the
    occurrence just replaced that are still to be passed over. *)
Fixpoint replace_from (old new : string) (skip : nat) (s : string) : string :=
  match s with
  | "" => ""
  | String c s' =>
      match skip with
      | S k => replace_from old new k s'
      | O =>
          if prefix old s
          then (new ++ replace_from old new (String.length old - 1) s')%string
          else String c (replace_from old new 0 s')
      end
  end.

Definition str_replace (old new s : string) : string := replace_from old new 0 s.

(** ** The two regular expressions *)

(** [re.sub(r"[\$,]", "", s)] *)
Fixpoint sub_dollar_comma (s : string) : string :=
  match s with
  | "" => ""
  | String c s' =>
      if (Ascii.eqb c "$" || Ascii.eqb c ",")%bool
      then sub_dollar_comma s'
      else String c (sub_dollar_comma s')
  end.

Fixpoint skip_spaces (s : string) : string :=
  match s with
  | "" => ""
  | String c s' => if isspace c then skip_spaces s' else s
  end.

Fixpoint skip_digits (s : string) : string :=
  match s with
  | "" => ""
  | String c s' => if isdigit c then skip_digits s' else s
  end.

(** [\s*\d+] at the start of [s]: the rest of [s] after the match.  The two
    classes are disjoint, so the greedy match is the only one that can be
    followed by [$]. *)
Definition match_spaces_digits (s : string) : option string :=
  match skip_spaces s with
  | "" => None
  | String c r => if isdigit c then Some (skip_digits r) else None
  end.

(** [$] (without [re.MULTILINE]) holds at the end of the string and just
    before a newline that is the last character. *)
Definition at_dollar (rest : string) : bool :=
  match rest with
  | "" => true
  | String c "" => Ascii.eqb c newline
  | _ => false
  end.

(** [\s*\d+$] at the start of [s]: what is left of [s] after the match. *)
Definition match_footnote (s : string) : option string :=
  match match_spaces_digits s with
  | Some rest => if at_dollar rest then Some rest else None
  | None => None
  end.

(** [re.sub(r"\s*\d+$", "", s)]: the search goes from the left; after a
    match, what is left of the string is empty or one newline and holds no
    further match. *)
Fixpoint sub_footnote (s : string) : string :=
  match s with
  | "" => ""
  | String c s' =>
      match match_footnote s with
      | Some rest => rest
      | None => String c (sub_footnote s')
      end
  end.

(** The Label Normalizer, line 74:
    [.str.replace(r"\s*\d+$", "", regex=True).str.strip()] on one label. *)
Definition normalize_label (s : string) : string := strip (sub_footnote s).

(** ** Cells and data frames *)

(** What a cell of a frame holds: a [str], a number, or the missing value
    [NaN]. *)
Inductive cell : Type :=
| Str (s : string)
| Num (z : Z)
| NaN.

Definition cell_eqb (a b : cell) : bool :=
  match a, b with
  | Str s, Str t => String.eqb s t
  | Num x, Num y => Z.eqb x y
  | NaN, NaN => true
  | _, _ => false
  end.

(** [str(x)] of a cell, as [.astype(str)] applies it. *)
Definition astype_str (c : cell) : string :=
  match c with
  | Str s => s
  | Num z => NilZero.string_of_int (Z.to_int z)
  | NaN => "nan"
  end.

(** A [DataFrame]: the row labels, the column labels, and the cells row by
    row. *)
Record Frame : Type := mkFrame {
  index : list cell;
  columns : list string;
  rows : list (list cell)
}.

(** ** List helpers *)

Fixpoint find_index {A : Type} (eqb : A -> A -> bool) (x : A) (l : list A)
  : option nat :=
  match l with
  | [] => None
  | y :: l' =>
      if eqb y x then Some 0
      else match find_index eqb x l' with
           | Some i => Some (S i)
           | None => None
           end
  end.

Definition isin {A : Type} (eqb : A -> A -> bool) (x : A) (l : list A) : bool :=
  existsb (eqb x) l.

Fixpoint is_unique {A : Type} (eqb : A -> A -> bool) (l : list A) : bool :=
  match l with
  | [] => true
  | x :: l' => negb (isin eqb x l') && is_unique eqb l'
  end.

Fixpoint list_eqb {A : Type} (eqb : A -> A -> bool) (l1 l2 : list A) : bool :=
  match l1, l2 with
  | [], [] => true
  | x :: l1', y :: l2' => eqb x y && list_eqb eqb l1' l2'
  | _, _ => false
  end.

Fixpoint set_nth {A : Type} (i : nat) (x : A) (l : list A) : list A :=
  match l, i with
  | [], _ => []
  | _ :: l', O => x :: l'
  | y :: l', S j => y :: set_nth j x l'
  end.

Fixpoint remove_nth {A : Type} (i : nat) (l : list A) : list A :=
  match l, i with
  | [], _ => []
  | _ :: l', O => l'
  | y :: l', S j => y :: remove_nth j l'
  end.

Fixpoint zip_with {A B C : Type} (f : A -> B -> C) (l1 : list A) (l2 : list B)
  : list C :=
  match l1, l2 with
  | x :: l1', y :: l2' => f x y :: zip_with f l1' l2'
  | _, _ => []
  end.

Fixpoint select {A : Type} (mask : list bool) (l : list A) : list A :=
  match mask, l with
  | b :: mask', x :: l' => if b then x :: select mask' l' else select mask' l'
  | _, _ => []
  end.

Definition count_occ_str (x : string) (l : list string) : nat :=
  length (filter (String.eqb x) l).

(** ** The pandas operations the code uses *)

(** [df.columns[0]] *)
Definition columns_0 (df : Frame) : result string :=
  match columns df with
  | [] => Raise IndexError
  | c :: _ => Ok c
  end.

(** [df.rename(columns={old: new})]: a new frame in which every column
    labelled [old] is labelled [new]. *)
Definition rename (df : Frame) (old new : string) : Frame :=
  mkFrame (index df)
          (map (fun c => if String.eqb c old then new else c) (columns df))
          (rows df).

(** The cells of the column at position [j]. *)
Definition column_at (df : Frame) (j : nat) : list cell :=
  map (fun r => nth j r NaN) (rows df).

(** [df[col]] used as a [Series] (the code goes on with [.astype(str).str]).
    With a label that occurs more than once [df[col]] is a [DataFrame], which
    has no [.str]: [AttributeError]. *)
Definition getitem (df : Frame) (col : string) : result (list cell) :=
  match count_occ_str col (columns df) with
  | 0 => Raise KeyError
  | 1 =>
      match find_index String.eqb col (columns df) with
      | Some j => Ok (column_at df j)
      | None => Raise KeyError
      end
  | _ => Raise AttributeError
  end.

(** [df[col] = values] for a column that exists: the frame after the
    assignment.  (A label that is not a column would add one; the code only
    assigns to columns it has just read.) *)
Definition setitem (df : Frame) (col : string) (values : list cell) : Frame :=
  match find_index String.eqb col (columns df) with
  | Some j =>
      mkFrame (index df) (columns df)
              (zip_with (fun r v => set_nth j v r) (rows df) values)
  | None =>
      mkFrame (index df) (columns df ++ [col])
              (zip_with (fun r v => r ++ [v]) (rows df) values)
  end.

(** [df.set_index(col)]: the column becomes the row labels and leaves the
    columns. *)
Definition set_index (df : Frame) (col : string) : result Frame :=
  match find_index String.eqb col (columns df) with
  | Some j =>
      Ok (mkFrame (column_at df j)
                  (remove_nth j (columns df))
                  (map (remove_nth j) (rows df)))
  | None => Raise KeyError
  end.

(** [df.replace(old, new)]: every cell equal to [old] becomes [new]; the
    labels are left alone. *)
Definition replace (df : Frame) (old new : cell) : Frame :=
  mkFrame (index df) (columns df)
          (map (map (fun c => if cell_eqb c old then new else c)) (rows df)).

(** [df[mask]] with a boolean mask over the rows. *)
Definition filter_rows (df : Frame) (mask : list bool) : Frame :=
  mkFrame (select mask (index df)) (columns df) (select mask (rows df)).

(** [index.str.lower()]: a label that is not a [str] gives [NaN]. *)
Definition str_lower (c : cell) : cell :=
  match c with
  | Str s => Str (lower s)
  | _ => NaN
  end.

(** Lines 92-93 for one row label [l]: the entry of the mask
    [index.str.lower().isin(desired)], where
    [desired = [comp.lower() for comp in components]]. *)
Definition is_desired (components : list string) (l : cell) : bool :=
  let desired := map lower components in
  isin cell_eqb (str_lower l) (map Str desired).

(** [df.reindex(labels, fill_value=fill)]: the rows of [df] in the order of
    [labels]; a label the frame does not have gets a row of [fill].  pandas
    refuses a frame whose row labels repeat ([ValueError: cannot reindex on
    an axis with duplicate labels]) unless they are the requested labels
    already. *)
Definition reindex (df : Frame) (labels : list string) (fill : cell)
  : result Frame :=
  let target := map Str labels in
  if list_eqb cell_eqb (index df) target then Ok df
  else if is_unique cell_eqb (index df) then
    Ok (mkFrame target (columns df)
          (map (fun l =>
                  match find_index cell_eqb l (index df) with
                  | Some i => nth i (rows df) []
                  | None => map (fun _ => fill) (columns df)
                  end) target))
  else Raise ValueError.

(** [df.reindex(columns=labels, fill_value=fill)] *)
Definition reindex_columns (df : Frame) (labels : list string) (fill : cell)
  : result Frame :=
  if list_eqb String.eqb (columns df) labels then Ok df
  else if is_unique String.eqb (columns df) then
    Ok (mkFrame (index df) labels
          (map (fun r =>
                  map (fun l =>
                         match find_index String.eqb l (columns df) with
                         | Some j => nth j r NaN
                         | None => fill
                         end) labels) (rows df)))
  else Raise ValueError.

(** [df.at[r, c]] on a frame whose labels do not repeat. *)
Definition at_ (df : Frame) (r : cell) (c : string) : result cell :=
  match find_index cell_eqb r (index df), find_index String.eqb c (columns df) with
  | Some i, Some j => Ok (nth j (nth i (rows df) []) NaN)
  | _, _ => Raise KeyError
  end.

(** A Python [dict] with [str] keys: the items in insertion order.
    Assigning to a key that is present keeps its place. *)
Definition dict (V : Type) : Type := list (string * V).

Fixpoint dict_set {V : Type} (k : string) (v : V) (d : dict V) : dict V :=
  match d with
  | [] => [(k, v)]
  | (k', v') :: d' =>
      if String.eqb k' k then (k', v) :: d' else (k', v') :: dict_set k v d'
  end.

Definition keys {V : Type} (d : dict V) : list string := map fst d.

(** [l[i]] on a list, for [i >= 0]. *)
Definition list_getitem {A : Type} (l : list A) (i : nat) : result A :=
  match nth_error l i with
  | Some x => Ok x
  | None => Raise IndexError
  end.

(** ** The program *)

(** Lines 31-46. *)
Definition chart_titles : list string :=
  [ "Federal Support to Provinces and Territories";
    "Federal Support to Newfoundland and Labrador";
    "Federal Support to Prince Edward Island";
    "Federal Support to Nova Scotia";
    "Federal Support to New Brunswick";
    "Federal Support to Quebec";
    "Federal Support to Ontario";
    "Federal Support to Manitoba";
    "Federal Support to Saskatchewan";
    "Federal Support to Alberta";
    "Federal Support to British Columbia";
    "Federal Support to Yukon";
    "Federal Support to Northwest Territories";
    "Federal Support to Nunavut" ].

(** Lines 48-52. *)
Definition extract_province_name (title : string) : string :=
  if contains "Provinces and Territories" title then "Aggregate"
  else strip (str_replace "Federal Support to " "" title).

(** Lines 104-105. *)
Definition years : list string :=
  [ "2016-17"; "2017-18"; "2018-19"; "2019-20"; "2020-21";
    "2021-22"; "2022-23"; "2023-24"; "2024-25"; "2025-26" ].

(** Lines 107-115. *)
Definition components : list string :=
  [ "Canada Health Transfer";
    "Canada Social Transfer";
    "Equalization";
    "Offshore Offsets";
    "Territorial Formula Financing";
    "Total - Federal Support";
    "Per Capita Allocation (dollars)" ].

Section Pipeline.

(** [pd.to_numeric] on one string: the number it reads, or [None] where it
    cannot read one. *)
Variable to_numeric : string -> option Z.

(** [pd.to_numeric(..., errors='coerce')] on one string: what cannot be read
    becomes [NaN]. *)
Definition to_numeric_coerce (s : string) : cell :=
  match to_numeric s with
  | Some z => Num z
  | None => NaN
  end.

(** Line 78 on one cell: [.astype(str)], the removal of "$" and ",", then
    [pd.to_numeric]. *)
Definition parse_cell (c : cell) : cell :=
  to_numeric_coerce (sub_dollar_comma (astype_str c)).

(** Line 74 on one cell of the first column. *)
Definition clean_label (c : cell) : cell := Str (normalize_label (astype_str c)).

(** The Numeric Coercer, lines 76-78 on one cell of a data column:
    [df.replace("-", 0)], then line 78. *)
Definition numeric_coercer (c : cell) : cell :=
  parse_cell (if cell_eqb c (Str "-") then Num 0 else c).

(** Line 78, the body of the loop: [df[col] = pd.to_numeric(...)]. *)
Definition coerce_column (col : string) (df : Frame) : result Frame :=
  s <- getitem df col ;;
  Ok (setitem df col (map parse_cell s)).

(** Lines 65-79, on frame values. *)
Definition clean_table (df : Frame) : result Frame :=
  c0 <- columns_0 df ;;
  let df := rename df c0 "Component" in
  s <- getitem df "Component" ;;
  let df := setitem df "Component" (map clean_label s) in
  df <- set_index df "Component" ;;
  let df := replace df (Str "-") (Num 0) in
  for_each (columns df) coerce_column df.

(** What [clean_table] computes, in closed form: the labels of the data
    columns after line 73, the test that lines 74 and 77-78 find a [Series]
    under every label, and the frame returned. *)
Definition renamed_columns (df : Frame) : list string :=
  match columns df with
  | [] => []
  | c0 :: cs => map (fun c => if String.eqb c c0 then "Component" else c) cs
  end.

Definition cleanable (df : Frame) : bool :=
  match columns df with
  | [] => false
  | _ :: _ =>
      (count_occ_str "Component" (renamed_columns df) =? 0)
      && is_unique String.eqb (renamed_columns df)
  end.

Definition cleaned (df : Frame) : Frame :=
  mkFrame (map (fun r => clean_label (hd NaN r)) (rows df))
          (renamed_columns df)
          (map (fun r => map numeric_coercer (tl r)) (rows df)).

(** Lines 90-97: the body of the [try] up to the assignment to
    [data_dict]. *)
Definition select_table (table : Frame) (years components : list string)
  : result Frame :=
  clean_df <- clean_table table ;;
  let sel_df :=
    filter_rows clean_df (map (is_desired components) (index clean_df)) in
  sel_df <- reindex sel_df components (Num 0) ;;
  reindex_columns sel_df years (Num 0).

(** Lines 88-100: one turn of the loop; an exception in the [try] leaves
    [data_dict] as it was. *)
Definition aggregate_step (i : nat) (table : Frame)
    (province_names years components : list string) (data_dict : dict Frame)
  : dict Frame :=
  match sel_df <- select_table table years components ;;
        name <- list_getitem province_names i ;;
        Ok (dict_set name sel_df data_dict)
  with
  | Ok d => d
  | Raise _ => data_dict
  end.

Fixpoint aggregate_loop (i : nat) (tables : list Frame)
    (province_names years components : list string) (data_dict : dict Frame)
  : dict Frame :=
  match tables with
  | [] => data_dict
  | table :: rest =>
      aggregate_loop (S i) rest province_names years components
        (aggregate_step i table province_names years components data_dict)
  end.

(** Lines 81-101, on frame values. *)
Definition aggregate_data (tables : list Frame)
    (province_names years components : list string) : dict Frame :=
  aggregate_loop 0 tables province_names years components [].

(** What a table and its name add to the dictionary: the item, if the [try]
    went through. *)
Definition entry (years components : list string) (item : string * Frame)
  : list (string * Frame) :=
  match select_table (snd item) years components with
  | Ok f => [(fst item, f)]
  | Raise _ => []
  end.

(** Lines 88-100 for a table and the name at its position: the dictionary
    after the turn of the loop. *)
Definition add_table (years components : list string) (data_dict : dict Frame)
    (item : string * Frame) : dict Frame :=
  match select_table (snd item) years components with
  | Ok sel_df => dict_set (fst item) sel_df data_dict
  | Raise _ => data_dict
  end.

(** Lines 119-123: the module-level [data_dict], as a function of the tables
    that [get_tables(url)] returned. *)
Definition num_tables (tables : list Frame) : nat := Nat.min 14 (length tables).

Definition province_names (tables : list Frame) : list string :=
  map extract_province_name (firstn (num_tables tables) chart_titles).

Definition data_dict (tables : list Frame) : dict Frame :=
  aggregate_data (firstn (num_tables tables) tables) (province_names tables)
                 years components.

End Pipeline.

(** ** Queries *)

Record ProjectionRow : Type := mkRow {
  Province : string;
  Component : string;
  Value : cell
}.

(** Lines 127-144; [data_dict] is the module-level dictionary.  The result
    stands for [pd.DataFrame(rows)]. *)
Definition build_long_dataframe (data_dict : dict Frame) (year : string)
    (include_aggregate : bool) : list ProjectionRow :=
  flat_map
    (fun item : string * Frame =>
       let (prov, df) := item in
       if negb include_aggregate && String.eqb (lower prov) "aggregate"
       then []
       else map (fun comp =>
                   mkRow prov comp
                         match at_ df (Str comp) year with
                         | Ok val => val
                         | Raise _ => Num 0
                         end)
                components)
    data_dict.

(** Lines 186-191: the rows handed to the chart.  [pd.DataFrame([])] has no
    column, so [df_long["Component"]] raises [KeyError] when no row was
    built. *)
Definition update_graph (data_dict : dict Frame) (selected_year : string)
    (selected_components : list string) (aggregate_val : option (list string))
  : result (list ProjectionRow) :=
  let include_aggregate :=
    match aggregate_val with
    | Some l => isin String.eqb "include" l
    | None => true
    end in
  let df_long := build_long_dataframe data_dict selected_year include_aggregate in
  match df_long with
  | [] => Raise KeyError
  | _ => Ok (filter (fun r => isin String.eqb (Component r) selected_components)
                    df_long)
  end.

(** ** A decimal reader for [pd.to_numeric]

    Reads an optional sign followed by one or more decimal digits; used to
    run the pipeline on concrete tables. *)
Fixpoint read_digits (acc : Z) (s : string) : option Z :=
  match s with
  | "" => Some acc
  | String c s' =>
      if isdigit c
      then read_digits (10 * acc + Z.of_nat (nat_of_ascii c - 48)) s'
      else None
  end.

Definition read_decimal (s : string) : option Z :=
  match s with
  | "" => None
  | String "-" (String c r) => option_map Z.opp (read_digits 0 (String c r))
  | String "+" (String c r) => read_digits 0 (String c r)
  | _ => read_digits 0 s
  end.

(** ** Store-passing versions of [clean_table] and [aggregate_data]

    A variable of the program holds a reference to a frame.  [rename],
    [set_index], [replace], [df[mask]] and [reindex] build a new frame;
    [df[col] = values] changes the frame [df] refers to. *)

Definition loc : Type := nat.
Definition heap : Type := list Frame.
Definition M (A : Type) : Type := heap -> heap * result A.

Definition ret {A : Type} (a : A) : M A := fun h => (h, Ok a).

Definition bind {A B : Type} (m : M A) (k : A -> M B) : M B :=
  fun h =>
    match m h with
    | (h', Ok a) => k a h'
    | (h', Raise e) => (h', Raise e)
    end.

Notation "x <~ m ;; k" := (bind m (fun x => k))
  (at level 61, m at next level, right associativity).

Definition lift {A : Type} (r : result A) : M A := fun h => (h, r).

Definition empty_frame : Frame := mkFrame [] [] [].

(** The frame a reference points to. *)
Definition deref (h : heap) (l : loc) : Frame := nth l h empty_frame.

Definition load (l : loc) : M Frame := fun h => (h, Ok (deref h l)).

Definition new (f : Frame) : M loc := fun h => (h ++ [f], Ok (length h)).

Definition store (l : loc) (f : Frame) : M unit :=
  fun h => (set_nth l f h, Ok tt).

(** [try: m except Exception: handler] *)
Definition try_except {A : Type} (m : M A) (handler : M A) : M A :=
  fun h =>
    match m h with
    | (h', Raise _) => handler h'
    | r => r
    end.

Fixpoint for_each_st {A : Type} (xs : list A) (body : A -> M unit) : M unit :=
  match xs with
  | [] => ret tt
  | x :: xs' => _ <~ body x ;; for_each_st xs' body
  end.

(** The value of a computation's outcome: the frame behind the reference it
    returned. *)
Definition outcome (p : heap * result loc) : result Frame :=
  match snd p with
  | Ok l => Ok (deref (fst p) l)
  | Raise e => Raise e
  end.

Definition deref_dict (h : heap) (d : dict loc) : dict Frame :=
  map (fun kv => (fst kv, deref h (snd kv))) d.

Section StorePassing.

Variable to_numeric : string -> option Z.

(** Line 78, the body of the loop: the frame [df] refers to is changed. *)
Definition coerce_column_st (df : loc) (col : string) : M unit :=
  f <~ load df ;;
  s <~ lift (getitem f col) ;;
  store df (setitem f col (map (parse_cell to_numeric) s)).

(** Lines 65-79. *)
Definition clean_table_st (df : loc) : M loc :=
  f <~ load df ;;
  c0 <~ lift (columns_0 f) ;;
  df <~ new (rename f c0 "Component") ;;
  f <~ load df ;;
  s <~ lift (getitem f "Component") ;;
  _ <~ store df (setitem f "Component" (map clean_label s)) ;;
  f <~ load df ;;
  g <~ lift (set_index f "Component") ;;
  df <~ new g ;;
  f <~ load df ;;
  df <~ new (replace f (Str "-") (Num 0)) ;;
  f <~ load df ;;
  _ <~ for_each_st (columns f) (coerce_column_st df) ;;
  ret df.

(** Lines 88-100: one turn of the loop. *)
Definition aggregate_step_st (i : nat) (table : loc)
    (province_names years components : list string) (data_dict : dict loc)
  : M (dict loc) :=
  try_except
    (clean_df <~ clean_table_st table ;;
     f <~ load clean_df ;;
     sel_df <~ new (filter_rows f (map (is_desired components) (index f))) ;;
     f <~ load sel_df ;;
     g <~ lift (reindex f components (Num 0)) ;;
     sel_df <~ new g ;;
     f <~ load sel_df ;;
     g <~ lift (reindex_columns f years (Num 0)) ;;
     sel_df <~ new g ;;
     name <~ lift (list_getitem province_names i) ;;
     ret (dict_set name sel_df data_dict))
    (ret data_dict).

Fixpoint aggregate_loop_st (i : nat) (tables : list loc)
    (province_names years components : list string) (data_dict : dict loc)
  : M (dict loc) :=
  match tables with
  | [] => ret data_dict
  | table :: rest =>
      d <~ aggregate_step_st i table province_names years components data_dict ;;
      aggregate_loop_st (S i) rest province_names years components d
  end.

(** Lines 81-101. *)
Definition aggregate_data_st (tables : list loc)
    (province_names years components : list string) : M (dict loc) :=
  aggregate_loop_st 0 tables province_names years components [].

(** The dictionary a run of [aggregate_data_st] ends with, read through the
    heap it ends with. *)
Definition dataset (p : heap * result (dict loc)) : dict Frame :=
  match snd p with
  | Ok d => deref_dict (fst p) d
  | Raise _ => []
  end.

End StorePassing.

(** ** Shapes

    A [DataFrame] has one label per row and one cell per row and column. *)
Definition well_formed (df : Frame) : bool :=
  (length (index df) =? length (rows df))
  && forallb (fun r => length r =? length (columns df)) (rows df).

(** A table as [pd.read_html] hands it over: the header and the rows of
    text, under the default row labels 0, 1, ... *)
Definition raw_table (header : list string) (body : list (list string)) : Frame :=
  mkFrame (map (fun n => Num (Z.of_nat n)) (seq 0 (length body)))
          header
          (map (map Str) body).

(** ** The projection, in closed form *)

(** A jurisdiction passes the aggregate filter of lines 135-136. *)
Definition shown (include_aggregate : bool) (item : string * Frame) : bool :=
  include_aggregate || negb (String.eqb (lower (fst item)) "aggregate").

(** Lines 139-142: the cell, or 0 where the lookup raises. *)
Definition value_at (df : Frame) (comp year : string) : cell :=
  match at_ df (Str comp) year with
  | Ok val => val
  | Raise _ => Num 0
  end.

(** Line 188. *)
Definition include_of (aggregate_val : option (list string)) : bool :=
  match aggregate_val with
  | Some l => isin String.eqb "include" l
  | None => true
  end.

(** The rows of a projection: for each jurisdiction in [items], one row per
    component of [comps], in that order, with the value [value]. *)
Definition rows_for (items : dict Frame) (comps : list string)
    (value : Frame -> string -> cell) : list ProjectionRow :=
  flat_map (fun item : string * Frame =>
              map (fun comp => mkRow (fst item) comp (value (snd item) comp))
                  comps)
           items.

(** ** Sample tables *)

(** The table of the end-to-end scenario of the specification. *)
Definition sample_table : Frame :=
  raw_table ["Item"; "2016-17"; "2017-18"] [["Equalization 1"; "$100"; "-"]].

(** A table with an empty cell and a cell that is not a number. *)
Definition sample_blank : Frame :=
  raw_table ["Item"; "2016-17"; "2017-18"] [["Equalization"; ""; "n/a"]].

(** A table in which two rows carry the label "Equalization" once the
    footnote markers are gone. *)
Definition sample_duplicate : Frame :=
  raw_table ["Item"; "2016-17"]
            [["Equalization 1"; "$100"]; ["Equalization 2"; "$200"]].

(** A table with no column at all. *)
Definition sample_empty : Frame := raw_table [] [].

(** The frame [select_table] returns, or the empty frame after an
    exception. *)
Definition frame_of (r : result Frame) : Frame :=
  match r with
  | Ok f => f
  | Raise _ => mkFrame [] [] []
  end.

(** ** The label normalizer in the words of the specification *)

(** [s] is a footnote marker: optional whitespace then one or more digits,
    up to the end of [s]. *)
Definition is_marker (s : string) : bool :=
  match match_spaces_digits s with
  | Some "" => true
  | _ => false
  end.

(** (a) trim a trailing whitespace-plus-digits suffix: the longest suffix
    that is a marker is dropped. *)
Fixpoint trim_marker (s : string) : string :=
  match s with
  | "" => ""
  | String c s' => if is_marker s then "" else String c (trim_marker s')
  end.

(** (a) then (b) trim surrounding whitespace. *)
Definition spec_normalize (s : string) : string := strip (trim_marker s).

(** The string made of one newline. *)
Definition nl : string := String newline "".

(** [s] without one final newline, if it has one. *)
Fixpoint chomp (s : string) : string :=
  match s with
  | "" => ""
  | String c "" => if Ascii.eqb c newline then "" else s
  | String c s' => String c (chomp s')
  end.

(** ** Fetching the tables *)

(** Line 118. *)
Definition url : string :=
  "https://www.canada.ca/en/department-finance/programs/federal-transfers/major-federal-transfers.html".

(** Lines 54-63; [read_html] stands for [pd.read_html]: the tables it found
    on the page, or the exception it raised.  The message printed by the
    handler is left out. *)
Definition get_tables (read_html : string -> result (list Frame)) (url : string)
  : list Frame :=
  match tables <- read_html url ;;
        match tables with
        | [] => Raise ValueError
        | _ :: _ => Ok tables
        end
  with
  | Ok tables => tables
  | Raise _ => []
  end.

(** * Properties *)

(** ** Strings *)

Lemma rstrip_app_space x c :
  isspace c = true -> rstrip (x ++ String c "")%string = rstrip x.
Proof.
  intros Hc. induction x as [|a x IH]; simpl.
  - now rewrite Hc.
  - now rewrite IH.
Qed.

Lemma strip_app_nl x : strip (x ++ nl)%string = strip x.
Proof. unfold strip, nl. now rewrite rstrip_app_space. Qed.

Lemma skip_spaces_app t u :
  skip_spaces (t ++ u)%string =
  match skip_spaces t with
  | "" => skip_spaces u
  | r => (r ++ u)%string
  end.
Proof.
  induction t as [|c t IH]; simpl.
  - destruct (skip_spaces u); reflexivity.
  - destruct (isspace c); [exact IH | reflexivity].
Qed.

Lemma skip_digits_app t u :
  skip_digits (t ++ u)%string =
  match skip_digits t with
  | "" => skip_digits u
  | r => (r ++ u)%string
  end.
Proof.
  induction t as [|c t IH]; simpl.
  - destruct (skip_digits u); reflexivity.
  - destruct (isdigit c); [exact IH | reflexivity].
Qed.

(** What a match leaves is a suffix of the string. *)
Lemma skip_spaces_suffix s : exists m, s = (m ++ skip_spaces s)%string.
Proof.
  induction s as [|c s [m IH]]; simpl.
  - now exists "".
  - destruct (isspace c).
    + exists (String c m). simpl. now rewrite <- IH.
    + now exists "".
Qed.

Lemma skip_digits_suffix s : exists m, s = (m ++ skip_digits s)%string.
Proof.
  induction s as [|c s [m IH]]; simpl.
  - now exists "".
  - destruct (isdigit c).
    + exists (String c m). simpl. now rewrite <- IH.
    + now exists "".
Qed.

Lemma append_assoc (a b c : string) :
  ((a ++ b) ++ c)%string = (a ++ (b ++ c))%string.
Proof. induction a; simpl; congruence. Qed.

Lemma match_spaces_digits_suffix s rest :
  match_spaces_digits s = Some rest -> exists m, s = (m ++ rest)%string.
Proof.
  unfold match_spaces_digits.
  destruct (skip_spaces_suffix s) as [m1 H1].
  destruct (skip_spaces s) as [|c r]; [discriminate|].
  destruct (isdigit c); [|discriminate].
  intros H; injection H as <-.
  destruct (skip_digits_suffix r) as [m2 H2].
  exists (m1 ++ String c m2)%string.
  rewrite append_assoc. simpl. now rewrite <- H2.
Qed.

Lemma chomp_cases s : chomp s = s \/ s = (chomp s ++ nl)%string.
Proof.
  induction s as [|c s IH]; [now left|].
  destruct s as [|d s].
  - simpl. destruct (Ascii.eqb c newline) eqn:E; [|now left].
    right. apply Ascii.eqb_eq in E. now subst.
  - change (chomp (String c (String d s))) with (String c (chomp (String d s))).
    destruct IH as [IH|IH]; [left | right].
    + now rewrite IH.
    + simpl. simpl in IH. now rewrite <- IH.
Qed.

Lemma chomp_app_nl_neq m : chomp (m ++ nl)%string <> (m ++ nl)%string.
Proof.
  induction m as [|c m IH]; [discriminate|].
  simpl. destruct (m ++ nl)%string as [|d r] eqn:E.
  - destruct m; discriminate.
  - intros H. injection H as H. now apply IH.
Qed.

Lemma chomp_tail c d s :
  chomp (String c (String d s)) = String c (String d s) ->
  chomp (String d s) = String d s.
Proof.
  change (chomp (String c (String d s))) with (String c (chomp (String d s))).
  now intros H; injection H.
Qed.

(** Without a final newline the code's pattern matches exactly at the
    markers. *)
Lemma match_footnote_no_nl s :
  chomp s = s ->
  match_footnote s = if is_marker s then Some "" else None.
Proof.
  intros Hs. unfold match_footnote, is_marker.
  destruct (match_spaces_digits s) as [rest|] eqn:E; [|reflexivity].
  destruct rest as [|c rest]; [reflexivity|].
  simpl. destruct rest as [|d rest]; [|reflexivity].
  destruct (Ascii.eqb c newline) eqn:Ec; [|reflexivity].
  apply Ascii.eqb_eq in Ec. subst c.
  apply match_spaces_digits_suffix in E. destruct E as [m E].
  exfalso. apply (chomp_app_nl_neq m). fold nl in E. now rewrite <- E.
Qed.

Lemma sub_footnote_no_nl s : chomp s = s -> sub_footnote s = trim_marker s.
Proof.
  induction s as [|c s IH]; [reflexivity|].
  intros Hs.
  cbn [sub_footnote trim_marker].
  rewrite (match_footnote_no_nl _ Hs).
  destruct (is_marker (String c s)); [reflexivity|].
  f_equal. apply IH.
  destruct s as [|d s]; [reflexivity|].
  now apply chomp_tail in Hs.
Qed.

(** Before a final newline the pattern matches exactly at the markers of
    the string without that newline. *)
Lemma match_footnote_nl t :
  match_footnote (t ++ nl)%string = if is_marker t then Some nl else None.
Proof.
  unfold match_footnote, is_marker, match_spaces_digits.
  rewrite skip_spaces_app.
  destruct (skip_spaces t) as [|c r] eqn:E; [reflexivity|].
  simpl. destruct (isdigit c); [|reflexivity].
  rewrite skip_digits_app.
  destruct (skip_digits r) as [|d r'] eqn:E'; [reflexivity|].
  simpl. destruct r'; reflexivity.
Qed.

Lemma sub_footnote_nl t :
  sub_footnote (t ++ nl)%string = (trim_marker t ++ nl)%string.
Proof.
  induction t as [|c t IH]; [reflexivity|].
  change (String c t ++ nl)%string with (String c (t ++ nl)).
  cbn [sub_footnote trim_marker].
  change (String c (t ++ nl)) with (String c t ++ nl)%string.
  rewrite match_footnote_nl.
  destruct (is_marker (String c t)); [reflexivity|].
  simpl. now rewrite IH.
Qed.

Lemma isin_str_map x l :
  isin cell_eqb (Str x) (map Str l) = isin String.eqb x l.
Proof.
  unfold isin. induction l as [|y l IH]; simpl; [reflexivity|].
  now rewrite IH.
Qed.

Lemma is_desired_str comps label :
  is_desired comps (Str label) = isin String.eqb (lower label) (map lower comps).
Proof. unfold is_desired. simpl. apply isin_str_map. Qed.

Lemma isin_str_true x l : isin String.eqb x l = true <-> In x l.
Proof.
  unfold isin. rewrite existsb_exists. split.
  - intros [y [Hy E]]. apply String.eqb_eq in E. now subst.
  - intros H. exists x. split; [exact H | apply String.eqb_refl].
Qed.

(** The examples of the specification, section 8. *)
Example normalize_label_footnote : normalize_label "Equalization 12" = "Equalization".
Proof. reflexivity. Qed.

Example normalize_label_leading :
  normalize_label "  Total - Federal Support" = "Total - Federal Support".
Proof. reflexivity. Qed.

(** C5, as stated, fails on a label that ends in a newline: the pattern's
    [$] also holds before a final newline, so the code drops the marker " 12"
    of "Equalization 12\n", which is not a suffix of that label. *)
Lemma normalize_label_final_newline :
  normalize_label ("Equalization 12" ++ nl)%string = "Equalization" /\
  spec_normalize ("Equalization 12" ++ nl)%string = "Equalization 12" /\
  normalize_label ("Equalization 12" ++ nl)%string
    <> spec_normalize ("Equalization 12" ++ nl)%string.
Proof. repeat split. discriminate. Qed.

(** C5 (amended): for every raw label, the Label Normalizer returns the label
    without its final newline (if it ends in one), with the trailing
    whitespace-plus-digits suffix removed and the surrounding whitespace
    trimmed; and the row filter of lines 92-93 selects a label exactly when
    its lower-case form is the lower-case form of a canonical component. *)
Theorem normalize_label_spec :
  (forall s, normalize_label s = spec_normalize (chomp s)) /\
  (forall comps label,
      is_desired comps (Str label) = true <->
      exists comp, In comp comps /\ lower label = lower comp).
Proof.
  split.
  - intros s. unfold normalize_label, spec_normalize.
    destruct (chomp_cases s) as [H|H].
    + rewrite H. now rewrite (sub_footnote_no_nl s H).
    + rewrite H at 1. rewrite sub_footnote_nl. apply strip_app_nl.
  - intros comps label. rewrite is_desired_str, isin_str_true, in_map_iff.
    split; intros [comp [H1 H2]]; exists comp; split; auto.
Qed.

(** ** Lists *)

Lemma is_unique_NoDup (l : list string) : is_unique String.eqb l = true <-> NoDup l.
Proof.
  induction l as [|x l IH]; simpl.
  - split; [constructor | reflexivity].
  - rewrite andb_true_iff, negb_true_iff, IH. split.
    + intros [H1 H2]. constructor; [|exact H2].
      intros Hin. apply isin_str_true in Hin. congruence.
    + intros H. inversion H as [|? ? Hn Hd]; subst. split; [|exact Hd].
      destruct (isin String.eqb x l) eqn:E; [|reflexivity].
      apply isin_str_true in E. contradiction.
Qed.

Lemma count_occ_str_notin x l : ~ In x l -> count_occ_str x l = 0.
Proof.
  unfold count_occ_str. induction l as [|y l IH]; simpl; [reflexivity|].
  intros H. destruct (String.eqb x y) eqn:E.
  - apply String.eqb_eq in E. subst. exfalso. apply H. now left.
  - apply IH. intros Hin. apply H. now right.
Qed.

Lemma count_occ_str_app x a b :
  count_occ_str x (a ++ b) = count_occ_str x a + count_occ_str x b.
Proof. unfold count_occ_str. now rewrite filter_app, length_app. Qed.

Lemma count_occ_str_cons_eq x l : count_occ_str x (x :: l) = S (count_occ_str x l).
Proof. unfold count_occ_str. simpl. now rewrite String.eqb_refl. Qed.

Lemma count_occ_str_pos x l : In x l <-> 1 <= count_occ_str x l.
Proof.
  unfold count_occ_str. induction l as [|y l IH]; simpl.
  - split; [contradiction | lia].
  - destruct (String.eqb x y) eqn:E.
    + apply String.eqb_eq in E. subst. simpl. split; [lia | now left].
    + apply String.eqb_neq in E. rewrite <- IH. split.
      * intros [H|H]; [congruence | exact H].
      * now right.
Qed.

Lemma find_index_app_notin (x : string) a b :
  ~ In x a -> find_index String.eqb x (a ++ x :: b) = Some (length a).
Proof.
  induction a as [|y a IH]; simpl; intros H.
  - now rewrite String.eqb_refl.
  - destruct (String.eqb y x) eqn:E.
    + apply String.eqb_eq in E. subst. exfalso. apply H. now left.
    + rewrite IH; [reflexivity|]. intros Hin. apply H. now right.
Qed.

Lemma find_index_str_in (x : string) l :
  In x l -> exists j, find_index String.eqb x l = Some j.
Proof.
  induction l as [|y l IH]; simpl; [contradiction|].
  intros H. destruct (String.eqb y x) eqn:E; [now exists 0|].
  apply String.eqb_neq in E. destruct H as [H|H]; [congruence|].
  destruct (IH H) as [j ->]. now exists (S j).
Qed.

Lemma not_unique_twice (l : list string) :
  is_unique String.eqb l = false -> exists x, In x l /\ 2 <= count_occ_str x l.
Proof.
  induction l as [|y l IH]; simpl; [discriminate|].
  destruct (isin String.eqb y l) eqn:E; simpl.
  - intros _. exists y. split; [now left|].
    rewrite count_occ_str_cons_eq. apply isin_str_true in E.
    apply count_occ_str_pos in E. lia.
  - intros H. destruct (IH H) as [x [Hin Hc]].
    exists x. split; [now right|].
    change (y :: l) with ([y] ++ l). rewrite count_occ_str_app. lia.
Qed.

Lemma zip_with_map_same {A B C : Type} (f : A -> B -> C) (g : A -> B) l :
  zip_with f l (map g l) = map (fun x => f x (g x)) l.
Proof. induction l as [|x l IH]; simpl; congruence. Qed.

Lemma length_set_nth {A : Type} j (x : A) l : length (set_nth j x l) = length l.
Proof.
  revert j; induction l as [|y l IH]; intros [|j]; simpl; auto.
Qed.

Lemma set_nth_step {A : Type} (f : A -> A) d j l :
  j < length l ->
  firstn (S j) (set_nth j (f (nth j l d)) l)
    ++ map f (skipn (S j) (set_nth j (f (nth j l d)) l))
  = firstn j l ++ map f (skipn j l).
Proof.
  revert j; induction l as [|y l IH]; intros j Hj; simpl in Hj; [lia|].
  destruct j as [|j].
  - reflexivity.
  - change (set_nth (S j) (f (nth (S j) (y :: l) d)) (y :: l))
      with (y :: set_nth j (f (nth j l d)) l).
    change (firstn (S (S j)) (y :: set_nth j (f (nth j l d)) l))
      with (y :: firstn (S j) (set_nth j (f (nth j l d)) l)).
    change (skipn (S (S j)) (y :: set_nth j (f (nth j l d)) l))
      with (skipn (S j) (set_nth j (f (nth j l d)) l)).
    change (firstn (S j) (y :: l)) with (y :: firstn j l).
    change (skipn (S j) (y :: l)) with (skipn j l).
    simpl app. f_equal. apply IH. lia.
Qed.

Lemma forallb_Forall_length (n : nat) (rs : list (list cell)) :
  forallb (fun r => length r =? n) rs = true <-> Forall (fun r => length r = n) rs.
Proof.
  rewrite forallb_forall, Forall_forall.
  split; intros H r Hr; specialize (H r Hr); now apply Nat.eqb_eq.
Qed.

(** ** [clean_table] in closed form *)

Section CleanTable.

Variable to_numeric : string -> option Z.

Lemma getitem_at done c todo idx rs :
  NoDup (done ++ c :: todo) ->
  getitem (mkFrame idx (done ++ c :: todo) rs) c
  = Ok (column_at (mkFrame idx (done ++ c :: todo) rs) (length done)).
Proof.
  intros Hnd. unfold getitem. cbn [columns].
  pose proof (NoDup_remove_2 _ _ _ Hnd) as Hnot.
  assert (Hd : ~ In c done) by (intros H; apply Hnot, in_or_app; now left).
  assert (Ht : ~ In c todo) by (intros H; apply Hnot, in_or_app; now right).
  rewrite count_occ_str_app, count_occ_str_cons_eq.
  rewrite (count_occ_str_notin _ _ Hd), (count_occ_str_notin _ _ Ht).
  cbn. now rewrite (find_index_app_notin _ _ _ Hd).
Qed.

Lemma coerce_column_at done c todo idx rs :
  NoDup (done ++ c :: todo) ->
  coerce_column to_numeric c (mkFrame idx (done ++ c :: todo) rs)
  = Ok (mkFrame idx (done ++ c :: todo)
          (map (fun r => set_nth (length done)
                           (parse_cell to_numeric (nth (length done) r NaN)) r)
               rs)).
Proof.
  intros Hnd. unfold coerce_column. rewrite (getitem_at _ _ _ _ _ Hnd).
  cbn [rbind]. unfold setitem. cbn [columns index rows].
  pose proof (NoDup_remove_2 _ _ _ Hnd) as Hnot.
  rewrite find_index_app_notin
    by (intros H; apply Hnot, in_or_app; now left).
  unfold column_at. cbn [rows]. rewrite map_map.
  now rewrite (zip_with_map_same
                 (fun r v => set_nth (length done) v r)
                 (fun r => parse_cell to_numeric (nth (length done) r NaN))).
Qed.

(** The loop of lines 77-78 parses every cell of every column. *)
Lemma coerce_loop todo : forall done idx rs,
  NoDup (done ++ todo) ->
  Forall (fun r => length r = length (done ++ todo)) rs ->
  for_each todo (coerce_column to_numeric) (mkFrame idx (done ++ todo) rs)
  = Ok (mkFrame idx (done ++ todo)
          (map (fun r => firstn (length done) r
                           ++ map (parse_cell to_numeric) (skipn (length done) r))
               rs)).
Proof.
  induction todo as [|c todo IH]; intros done idx rs Hnd Hlen.
  - cbn [for_each]. do 2 f_equal.
    rewrite <- (map_id rs) at 1. apply map_ext_in.
    intros r Hr. rewrite Forall_forall in Hlen. specialize (Hlen r Hr).
    rewrite app_nil_r in Hlen. rewrite <- Hlen.
    now rewrite firstn_all, skipn_all, app_nil_r.
  - cbn [for_each]. rewrite (coerce_column_at _ _ _ _ _ Hnd). cbn [rbind].
    replace (done ++ c :: todo) with ((done ++ [c]) ++ todo)
      by (now rewrite <- app_assoc).
    rewrite IH.
    + do 2 f_equal. rewrite map_map. apply map_ext_in.
      intros r Hr. rewrite Forall_forall in Hlen. specialize (Hlen r Hr).
      rewrite length_app. cbn [length]. rewrite Nat.add_1_r.
      apply set_nth_step. rewrite Hlen, length_app. cbn [length]. lia.
    + now rewrite <- app_assoc.
    + rewrite Forall_forall in *. intros r Hr.
      apply in_map_iff in Hr. destruct Hr as [r0 [<- Hr0]].
      rewrite length_set_nth, <- app_assoc. now apply Hlen.
Qed.

(** A column label that occurs twice stops the loop with an exception. *)
Lemma coerce_loop_raises todo : forall df,
  (forall x, In x todo -> In x (columns df)) ->
  (exists x, In x todo /\ 2 <= count_occ_str x (columns df)) ->
  exists e, for_each todo (coerce_column to_numeric) df = Raise e.
Proof.
  induction todo as [|c todo IH]; intros df Hsub [x [Hin Hx]].
  - contradiction.
  - cbn [for_each]. unfold coerce_column at 1. unfold getitem.
    destruct (count_occ_str c (columns df)) as [|[|n]] eqn:Ec; cbn [rbind].
    + now exists KeyError.
    + destruct (find_index_str_in c (columns df)) as [j Hj].
      { apply Hsub. now left. }
      rewrite Hj. cbn [rbind].
      assert (Hcols : columns (setitem df c
                        (map (parse_cell to_numeric) (column_at df j)))
                      = columns df).
      { unfold setitem. now rewrite Hj. }
      apply IH.
      * intros y Hy. rewrite Hcols. apply Hsub. now right.
      * exists x. rewrite Hcols. split; [|exact Hx].
        destruct Hin as [->|Hin]; [lia | exact Hin].
    + now exists AttributeError.
Qed.

Lemma renamed_first c0 cs idx rs :
  columns (rename (mkFrame idx (c0 :: cs) rs) c0 "Component")
  = "Component" :: renamed_columns (mkFrame idx (c0 :: cs) rs).
Proof. unfold rename, renamed_columns. cbn. now rewrite String.eqb_refl. Qed.

(** Lines 65-79 succeed exactly on the frames that [cleanable] accepts, and
    return [cleaned]. *)
Lemma clean_table_cleaned df :
  well_formed df = true -> cleanable df = true ->
  clean_table to_numeric df = Ok (cleaned to_numeric df).
Proof.
  destruct df as [idx cols rs]. unfold well_formed, cleanable. cbn [columns rows index].
  intros Hwf Hc. destruct cols as [|c0 cs]; [discriminate|].
  apply andb_true_iff in Hwf. destruct Hwf as [_ Hwf].
  apply forallb_Forall_length in Hwf.
  apply andb_true_iff in Hc. destruct Hc as [Hc Hu].
  apply Nat.eqb_eq in Hc. apply is_unique_NoDup in Hu.
  unfold clean_table. cbn [columns_0 columns rbind].
  pose proof (renamed_first c0 cs idx rs) as Hcols.
  set (df0 := mkFrame idx (c0 :: cs) rs) in *.
  set (cs' := renamed_columns df0) in *.
  unfold getitem at 1. rewrite Hcols, count_occ_str_cons_eq, Hc.
  cbn [find_index]. rewrite String.eqb_refl. cbn [rbind].
  unfold setitem at 1. rewrite Hcols. cbn [find_index]. rewrite String.eqb_refl.
  unfold set_index. cbn [columns find_index].
  rewrite String.eqb_refl. cbn [rbind remove_nth].
  unfold replace. cbn [columns index rows].
  unfold column_at. cbn [rows rename index].
  rewrite (map_map (fun r => nth 0 r NaN) clean_label).
  rewrite (zip_with_map_same (fun r v => set_nth 0 v r)
             (fun r => clean_label (nth 0 r NaN))).
  rewrite !map_map.
  refine (eq_trans (coerce_loop cs' [] _ _ Hu _) _).
  - rewrite Forall_forall. intros r Hr.
    apply in_map_iff in Hr. destruct Hr as [r0 [<- Hr0]].
    rewrite Forall_forall in Hwf. specialize (Hwf r0 Hr0).
    rewrite length_map. unfold cs', renamed_columns, df0. cbn [columns app].
    rewrite length_map. destruct r0; [discriminate|].
    cbn in *. lia.
  - unfold cleaned. cbn [rows columns app length firstn skipn]. f_equal. f_equal.
    + apply map_ext_in. intros r Hr.
      rewrite Forall_forall in Hwf. specialize (Hwf r Hr).
      destruct r; [discriminate | reflexivity].
    + rewrite map_map. apply map_ext_in. intros r Hr.
      rewrite map_map.
      destruct r; reflexivity.
Qed.

Lemma clean_table_raises df :
  cleanable df = false -> exists e, clean_table to_numeric df = Raise e.
Proof.
  destruct df as [idx cols rs]. unfold cleanable. cbn [columns].
  destruct cols as [|c0 cs]; [now exists IndexError|].
  intros Hc.
  unfold clean_table. cbn [columns_0 columns rbind].
  pose proof (renamed_first c0 cs idx rs) as Hcols.
  set (df0 := mkFrame idx (c0 :: cs) rs) in *.
  set (cs' := renamed_columns df0) in *.
  unfold getitem at 1. rewrite Hcols, count_occ_str_cons_eq.
  destruct (count_occ_str "Component" cs') as [|n] eqn:En;
    [|now exists AttributeError].
  cbn [find_index]. rewrite String.eqb_refl. cbn [rbind].
  unfold setitem at 1. rewrite Hcols. cbn [find_index]. rewrite String.eqb_refl.
  unfold set_index. cbn [columns find_index].
  rewrite String.eqb_refl. cbn [rbind remove_nth].
  unfold replace at 1. cbn [columns].
  cbn in Hc. apply not_unique_twice in Hc.
  refine (coerce_loop_raises cs' _ _ _).
  - intros x Hx. exact Hx.
  - exact Hc.
Qed.

(** The outcome of [clean_table] on every frame. *)
Lemma clean_table_closed_form df :
  well_formed df = true ->
  (cleanable df = true /\ clean_table to_numeric df = Ok (cleaned to_numeric df))
  \/ (cleanable df = false /\ exists e, clean_table to_numeric df = Raise e).
Proof.
  intros Hwf. destruct (cleanable df) eqn:E.
  - left. split; [reflexivity | now apply clean_table_cleaned].
  - right. split; [reflexivity | now apply clean_table_raises].
Qed.

End CleanTable.

(** ** Looking labels up *)

Lemma cell_eqb_eq a b : cell_eqb a b = true <-> a = b.
Proof.
  destruct a, b; simpl; split; intros H; try discriminate; try reflexivity.
  - apply String.eqb_eq in H. now subst.
  - injection H as ->. apply String.eqb_refl.
  - apply Z.eqb_eq in H. now subst.
  - injection H as ->. apply Z.eqb_refl.
Qed.

Section FindIndex.

Context {A : Type} (eqb : A -> A -> bool).
Hypothesis eqb_eq : forall a b, eqb a b = true <-> a = b.

Lemma find_index_some x l i :
  find_index eqb x l = Some i -> nth_error l i = Some x.
Proof.
  revert i; induction l as [|y l IH]; simpl; intros i; [discriminate|].
  destruct (eqb y x) eqn:E.
  - intros H; injection H as <-. apply eqb_eq in E. now subst.
  - destruct (find_index eqb x l) as [k|]; [|discriminate].
    intros H; injection H as <-. simpl. now apply IH.
Qed.

Lemma find_index_in x l : In x l -> exists i, find_index eqb x l = Some i.
Proof.
  induction l as [|y l IH]; simpl; [contradiction|].
  intros H. destruct (eqb y x) eqn:E; [now exists 0|].
  destruct H as [H|H].
  - subst. assert (eqb x x = true) by now apply eqb_eq. congruence.
  - destruct (IH H) as [i ->]. now exists (S i).
Qed.

Lemma find_index_notin x l : ~ In x l -> find_index eqb x l = None.
Proof.
  intros H. destruct (find_index eqb x l) as [i|] eqn:E; [|reflexivity].
  apply find_index_some in E. apply nth_error_In in E. contradiction.
Qed.

Lemma list_eqb_eq l1 l2 : list_eqb eqb l1 l2 = true -> l1 = l2.
Proof.
  revert l2; induction l1 as [|x l1 IH]; intros [|y l2]; simpl;
    try discriminate; [reflexivity|].
  intros H. apply andb_true_iff in H. destruct H as [H1 H2].
  apply eqb_eq in H1. subst. f_equal. now apply IH.
Qed.

End FindIndex.

Lemma string_eqb_eq a b : String.eqb a b = true <-> a = b.
Proof. apply String.eqb_eq. Qed.

Lemma nth_map_nth_error {A B : Type} (f : A -> B) l i x d :
  nth_error l i = Some x -> nth i (map f l) d = f x.
Proof.
  revert i; induction l as [|y l IH]; intros [|i]; simpl; try discriminate.
  - now intros H; injection H as ->.
  - apply IH.
Qed.

Lemma nth_const_fill {A : Type} (fill d : cell) (l : list A) j :
  j < length l -> nth j (map (fun _ => fill) l) d = fill.
Proof.
  revert j; induction l as [|y l IH]; intros [|j]; simpl; intros H; try lia.
  - reflexivity.
  - apply IH. lia.
Qed.

(** ** [reindex] read through [df.at] *)

Lemma reindex_at df labels fill out l c :
  reindex df labels fill = Ok out ->
  In l labels ->
  at_ out (Str l) c =
    match find_index String.eqb c (columns df) with
    | None => Raise KeyError
    | Some _ => Ok match at_ df (Str l) c with
                   | Ok v => v
                   | Raise _ => fill
                   end
    end.
Proof.
  unfold reindex. intros H Hl.
  assert (Hin : In (Str l) (map Str labels)) by now apply in_map.
  destruct (list_eqb cell_eqb (index df) (map Str labels)) eqn:E.
  - injection H as <-. apply (list_eqb_eq _ cell_eqb_eq) in E.
    unfold at_. rewrite E.
    destruct (find_index_in _ cell_eqb_eq _ _ Hin) as [i ->].
    now destruct (find_index String.eqb c (columns df)).
  - destruct (is_unique cell_eqb (index df)); [|discriminate].
    injection H as <-. unfold at_. cbn [index columns rows].
    destruct (find_index_in _ cell_eqb_eq _ _ Hin) as [i Hi]. rewrite Hi.
    apply (find_index_some _ cell_eqb_eq) in Hi.
    destruct (find_index String.eqb c (columns df)) as [j|] eqn:Ej;
      [|reflexivity].
    rewrite (nth_map_nth_error _ _ _ _ _ Hi).
    destruct (find_index cell_eqb (Str l) (index df)); [reflexivity|].
    f_equal. apply nth_const_fill.
    apply (find_index_some _ string_eqb_eq) in Ej.
    apply nth_error_Some. congruence.
Qed.

Lemma reindex_shape df labels fill out :
  reindex df labels fill = Ok out ->
  length (index df) = length (rows df) ->
  index out = map Str labels /\ columns out = columns df
  /\ length (index out) = length (rows out).
Proof.
  unfold reindex. intros H Hlen.
  destruct (list_eqb cell_eqb (index df) (map Str labels)) eqn:E.
  - injection H as <-. apply (list_eqb_eq _ cell_eqb_eq) in E. auto.
  - destruct (is_unique cell_eqb (index df)); [|discriminate].
    injection H as <-. cbn. now rewrite !length_map.
Qed.

Lemma reindex_columns_at df labels fill out r c :
  reindex_columns df labels fill = Ok out ->
  length (index df) = length (rows df) ->
  In c labels ->
  at_ out r c =
    match find_index cell_eqb r (index df) with
    | None => Raise KeyError
    | Some _ => Ok match at_ df r c with
                   | Ok v => v
                   | Raise _ => fill
                   end
    end.
Proof.
  unfold reindex_columns. intros H Hlen Hc.
  destruct (list_eqb String.eqb (columns df) labels) eqn:E.
  - injection H as <-. apply (list_eqb_eq _ string_eqb_eq) in E.
    unfold at_. rewrite E.
    destruct (find_index_in _ string_eqb_eq _ _ Hc) as [j ->].
    now destruct (find_index cell_eqb r (index df)).
  - destruct (is_unique String.eqb (columns df)); [|discriminate].
    injection H as <-. unfold at_. cbn [index columns rows].
    destruct (find_index cell_eqb r (index df)) as [i|] eqn:Ei; [|reflexivity].
    destruct (find_index_in _ string_eqb_eq _ _ Hc) as [j Hj]. rewrite Hj.
    apply (find_index_some _ string_eqb_eq) in Hj.
    apply (find_index_some _ cell_eqb_eq) in Ei.
    assert (Hi : i < length (rows df)).
    { rewrite <- Hlen. apply nth_error_Some. congruence. }
    destruct (nth_error (rows df) i) as [row|] eqn:Er;
      [|apply nth_error_None in Er; lia].
    rewrite (nth_map_nth_error _ _ _ _ _ Er).
    rewrite (nth_map_nth_error _ _ _ _ _ Hj).
    rewrite (nth_error_nth _ _ _ Er).
    now destruct (find_index String.eqb c (columns df)).
Qed.

Lemma reindex_columns_shape df labels fill out :
  reindex_columns df labels fill = Ok out ->
  index out = index df /\ columns out = labels.
Proof.
  unfold reindex_columns. intros H.
  destruct (list_eqb String.eqb (columns df) labels) eqn:E.
  - injection H as <-. apply (list_eqb_eq _ string_eqb_eq) in E. auto.
  - destruct (is_unique String.eqb (columns df)); [|discriminate].
    injection H as <-. auto.
Qed.

(** ** The row filter read through [df.at] *)

Lemma select_lookup (p : cell -> bool) r :
  p r = true ->
  forall (idx : list cell) (rs : list (list cell)),
  length idx = length rs ->
  option_map (fun i => nth i (select (map p idx) rs) [])
             (find_index cell_eqb r (select (map p idx) idx))
  = option_map (fun i => nth i rs []) (find_index cell_eqb r idx).
Proof.
  intros Hp. induction idx as [|x idx IH]; intros [|row rs] Hlen;
    try discriminate; [reflexivity|].
  injection Hlen as Hlen. specialize (IH rs Hlen).
  cbn [map select]. destruct (p x) eqn:Ex.
  - cbn [find_index]. destruct (cell_eqb x r); [reflexivity|].
    destruct (find_index cell_eqb r (select (map p idx) idx));
      destruct (find_index cell_eqb r idx); cbn in *; congruence.
  - cbn [find_index].
    destruct (cell_eqb x r) eqn:E.
    + apply cell_eqb_eq in E. congruence.
    + destruct (find_index cell_eqb r (select (map p idx) idx));
        destruct (find_index cell_eqb r idx); cbn in *; congruence.
Qed.

Lemma filter_rows_at df (p : cell -> bool) r c :
  p r = true ->
  length (index df) = length (rows df) ->
  at_ (filter_rows df (map p (index df))) r c = at_ df r c.
Proof.
  intros Hp Hlen. pose proof (select_lookup p r Hp _ _ Hlen) as H.
  unfold at_, filter_rows. cbn [index columns rows].
  destruct (find_index cell_eqb r (select (map p (index df)) (index df)));
    destruct (find_index cell_eqb r (index df)); cbn in H;
    try discriminate; [|reflexivity].
  injection H as ->. reflexivity.
Qed.

Lemma length_select {A B : Type} (mask : list bool) (a : list A) (b : list B) :
  length a = length b -> length (select mask a) = length (select mask b).
Proof.
  revert a b; induction mask as [|m mask IH]; intros [|x a] [|y b] H;
    try discriminate; try reflexivity.
  injection H as H. cbn. destruct m; cbn; auto.
Qed.

Lemma is_desired_component cs comp : In comp cs -> is_desired cs (Str comp) = true.
Proof.
  intros H. rewrite is_desired_str. apply isin_str_true. now apply in_map.
Qed.

(** ** What [select_table] returns *)

Section SelectTable.

Variable to_numeric : string -> option Z.

Lemma cleaned_shape df :
  length (index (cleaned to_numeric df)) = length (rows (cleaned to_numeric df)).
Proof. unfold cleaned. cbn. now rewrite !length_map. Qed.

(** A table that was processed has the requested components as rows and the
    requested years as columns; its cell for a component and a year is the
    cell of the cleaned table under these two labels, and 0 where the cleaned
    table has no such row or no such column. *)
Lemma select_table_at ys cs table out :
  well_formed table = true ->
  select_table to_numeric table ys cs = Ok out ->
  index out = map Str cs /\ columns out = ys /\
  forall comp year, In comp cs -> In year ys ->
    at_ out (Str comp) year =
    Ok match at_ (cleaned to_numeric table) (Str comp) year with
       | Ok v => v
       | Raise _ => Num 0
       end.
Proof.
  intros Hwf. unfold select_table.
  destruct (clean_table_closed_form to_numeric table Hwf) as [[_ ->]|[_ [e ->]]];
    [|discriminate].
  cbn [rbind].
  set (df := cleaned to_numeric table).
  set (sel := filter_rows df (map (is_desired cs) (index df))).
  destruct (reindex sel cs (Num 0)) as [mid|] eqn:E1; [|discriminate].
  cbn [rbind]. intros E2.
  assert (Hsel : length (index sel) = length (rows sel)).
  { unfold sel, filter_rows. cbn. apply length_select, cleaned_shape. }
  destruct (reindex_shape _ _ _ _ E1 Hsel) as [Hi [Hc Hl]].
  destruct (reindex_columns_shape _ _ _ _ E2) as [Hi' Hc'].
  split; [congruence|]. split; [exact Hc'|].
  intros comp year Hcomp Hyear.
  rewrite (reindex_columns_at _ _ _ _ (Str comp) year E2 Hl Hyear).
  rewrite Hi.
  destruct (find_index_in _ cell_eqb_eq (Str comp) (map Str cs)) as [i ->];
    [now apply in_map|].
  rewrite (reindex_at _ _ _ _ comp year E1 Hcomp).
  f_equal.
  assert (Hat : at_ sel (Str comp) year = at_ df (Str comp) year).
  { apply filter_rows_at; [now apply is_desired_component | apply cleaned_shape]. }
  rewrite <- Hat.
  destruct (find_index String.eqb year (columns sel)) eqn:Ej; [reflexivity|].
  unfold at_. rewrite Ej.
  now destruct (find_index cell_eqb (Str comp) (index sel)).
Qed.



End SelectTable.

(** ** The cells of a jurisdiction table *)




(** ** The Numeric Coercer *)

(** C4, as stated, fails at its last clause: nothing downstream fills a
    missing value.  The cell "n/a" of [sample_blank] is still [NaN], not 0,
    in the table the Aggregator stores. *)
Lemma missing_value_not_filled :
  numeric_coercer read_decimal (Str "n/a") = NaN /\
  at_ (frame_of (select_table read_decimal sample_blank years components))
      (Str "Equalization") "2017-18" = Ok NaN /\
  at_ (frame_of (select_table read_decimal sample_blank years components))
      (Str "Equalization") "2017-18" <> Ok (Num 0).
Proof. repeat split. discriminate. Qed.

(** C4 (amended): the Numeric Coercer maps the cell "-" to 0 and the cell
    "$1,234" to 1234 (given that the parser reads "0" as 0 and "1234" as
    1234); it maps every other cell that the parser cannot read once "$" and
    "," are removed to the missing value [NaN] and raises nothing; and a
    missing value of the cleaned table is still missing in the table that is
    stored: the zero fill reaches only rows and columns that are absent. *)
Theorem numeric_coercer_spec (to_numeric : string -> option Z) :
  to_numeric "0" = Some 0%Z ->
  to_numeric "1234" = Some 1234%Z ->
  numeric_coercer to_numeric (Str "-") = Num 0
  /\ numeric_coercer to_numeric (Str "$1,234") = Num 1234
  /\ (forall s, s <> "-" -> to_numeric (sub_dollar_comma s) = None ->
                numeric_coercer to_numeric (Str s) = NaN)
  /\ (forall table out comp year,
        well_formed table = true ->
        select_table to_numeric table years components = Ok out ->
        In comp components -> In year years ->
        at_ (cleaned to_numeric table) (Str comp) year = Ok NaN ->
        at_ out (Str comp) year = Ok NaN).
Proof.
  intros H0 H1234. unfold numeric_coercer, parse_cell, to_numeric_coerce.
  split; [cbn; now rewrite H0|].
  split; [cbn; now rewrite H1234|].
  split.
  - intros s Hs Hnone.
    assert (E : cell_eqb (Str s) (Str "-") = false).
    { destruct (cell_eqb (Str s) (Str "-")) eqn:E; [|reflexivity].
      apply cell_eqb_eq in E. congruence. }
    rewrite E. cbn [astype_str]. now rewrite Hnone.
  - intros table out comp year Hwf Hsel Hcomp Hyear Hnan.
    destruct (select_table_at to_numeric _ _ _ _ Hwf Hsel) as [_ [_ Hat]].
    rewrite (Hat _ _ Hcomp Hyear). now rewrite Hnan.
Qed.

Lemma numeric_coercer_spec_witness :
  numeric_coercer read_decimal (Str "-") = Num 0
  /\ numeric_coercer read_decimal (Str "$1,234") = Num 1234
  /\ numeric_coercer read_decimal (Str "") = NaN.
Proof.
  destruct (numeric_coercer_spec read_decimal eq_refl eq_refl)
    as [H1 [H2 [H3 _]]].
  split; [exact H1|]. split; [exact H2|].
  apply H3; [discriminate | reflexivity].
Defined.

(** ** The Aggregator *)

Lemma dict_set_fresh {V : Type} k (v : V) d :
  ~ In k (keys d) -> dict_set k v d = d ++ [(k, v)].
Proof.
  induction d as [|[k' v'] d IH]; simpl; [reflexivity|].
  intros H. destruct (String.eqb k' k) eqn:E.
  - apply String.eqb_eq in E. exfalso. apply H. now left.
  - rewrite IH; [reflexivity|]. intros Hin. apply H. now right.
Qed.

Lemma skipn_nth_error {A : Type} (l : list A) i x :
  nth_error l i = Some x -> skipn i l = x :: skipn (S i) l.
Proof.
  revert i; induction l as [|y l IH]; intros [|i]; simpl; try discriminate.
  - now intros H; injection H as ->.
  - intros H. rewrite (IH _ H). now destruct l.
Qed.

Lemma firstn_S_in {A : Type} (l : list A) i x :
  In x (firstn i l) -> In x (firstn (S i) l).
Proof.
  revert i; induction l as [|y l IH]; intros [|i]; simpl; try contradiction.
  intros [H|H]; [now left | right]. now apply IH.
Qed.

Lemma NoDup_nth_error_firstn {A : Type} (l : list A) i x :
  NoDup l -> nth_error l i = Some x -> ~ In x (firstn i l).
Proof.
  intros Hnd. revert i. induction Hnd as [|y l Hy Hnd IH]; intros [|i]; simpl;
    try discriminate; [tauto|].
  intros H [E|E].
  - subst. apply Hy. eapply nth_error_In. exact H.
  - exact (IH _ H E).
Qed.

Section Aggregator.

Variable to_numeric : string -> option Z.
Variables ys cs : list string.

Lemma aggregate_loop_flat names :
  NoDup names ->
  forall tables i d,
    (forall k, In k (keys d) -> In k (firstn i names)) ->
    aggregate_loop to_numeric i tables names ys cs d
    = d ++ flat_map (entry to_numeric ys cs) (combine (skipn i names) tables).
Proof.
  intros Hnd. induction tables as [|t tables IH]; intros i d Hd.
  - cbn. now rewrite combine_nil, app_nil_r.
  - cbn [aggregate_loop]. unfold aggregate_step, list_getitem.
    destruct (nth_error names i) as [n|] eqn:En.
    + rewrite (skipn_nth_error _ _ _ En). cbn [combine flat_map].
      unfold entry at 1. cbn [fst snd].
      destruct (select_table to_numeric t ys cs) as [f|e]; cbn [rbind].
      * rewrite dict_set_fresh.
        -- rewrite IH; [now rewrite <- app_assoc|].
           intros k Hk. unfold keys in Hk. rewrite map_app in Hk.
           apply in_app_or in Hk. destruct Hk as [Hk|[Hk|[]]].
           ++ apply firstn_S_in. now apply Hd.
           ++ cbn in Hk. subst k.
              clear -En. revert i En.
              induction names as [|z l IHl]; intros [|i]; simpl; try discriminate.
              ** intros H; injection H as ->. now left.
              ** intros H. right. now apply IHl.
        -- intros Hin. apply Hd in Hin.
           exact (NoDup_nth_error_firstn _ _ _ Hnd En Hin).
      * rewrite IH; [reflexivity|].
        intros k Hk. apply firstn_S_in. now apply Hd.
    + assert (E : rbind (select_table to_numeric t ys cs)
                    (fun sel_df => rbind (@Raise string IndexError)
                       (fun name => Ok (dict_set name sel_df d)))
                  = Raise match select_table to_numeric t ys cs with
                          | Ok _ => IndexError | Raise e => e end)
        by now destruct (select_table to_numeric t ys cs).
      rewrite E. apply nth_error_None in En.
      rewrite IH.
      * rewrite !skipn_all2 by lia. reflexivity.
      * intros k Hk. apply firstn_S_in. now apply Hd.
Qed.

(** With distinct names, the dictionary lists the tables that were
    processed, in the order of the input, each under its name. *)
Lemma aggregate_data_flat tables names :
  NoDup names ->
  aggregate_data to_numeric tables names ys cs
  = flat_map (entry to_numeric ys cs) (combine names tables).
Proof.
  intros Hnd. unfold aggregate_data.
  rewrite (aggregate_loop_flat names Hnd tables 0 []); [reflexivity|].
  intros k [].
Qed.

Lemma entries_all_ok names tables frames :
  length names = length tables ->
  Forall2 (fun t f => select_table to_numeric t ys cs = Ok f) tables frames ->
  flat_map (entry to_numeric ys cs) (combine names tables) = combine names frames.
Proof.
  intros Hlen H. revert names Hlen.
  induction H as [|t f tables frames Htf H IH]; intros [|n names] Hlen;
    try discriminate; [reflexivity|].
  cbn [combine flat_map]. unfold entry at 1. cbn [fst snd]. rewrite Htf.
  cbn. f_equal. apply IH. now injection Hlen.
Qed.

Lemma combine_app_same {A B : Type} (a1 a2 : list A) (b1 b2 : list B) :
  length a1 = length b1 ->
  combine (a1 ++ a2) (b1 ++ b2) = combine a1 b1 ++ combine a2 b2.
Proof.
  revert b1; induction a1 as [|x a1 IH]; intros [|y b1] H; try discriminate.
  - reflexivity.
  - cbn. f_equal. apply IH. now injection H.
Qed.

Lemma keys_combine {V : Type} (names : list string) (vs : list V) :
  length names = length vs -> keys (combine names vs) = names.
Proof.
  revert vs; induction names as [|n names IH]; intros [|v vs] H;
    try discriminate; [reflexivity|].
  cbn. f_equal. apply IH. now injection H.
Qed.

End Aggregator.

Section AggregatorClaims.

Variable to_numeric : string -> option Z.

Lemma entries_keys ys cs n : forall names tables,
  In n (keys (flat_map (entry to_numeric ys cs) (combine names tables))) ->
  exists k t f, nth_error names k = Some n /\ nth_error tables k = Some t
                /\ select_table to_numeric t ys cs = Ok f.
Proof.
  induction names as [|m names IH]; intros [|t tables] H; try contradiction.
  cbn [combine flat_map] in H. unfold keys in H. rewrite map_app in H.
  apply in_app_or in H. destruct H as [H|H].
  - unfold entry in H. cbn [fst snd] in H.
    destruct (select_table to_numeric t ys cs) as [f|e] eqn:E; [|contradiction].
    destruct H as [H|[]]. cbn in H. subst m.
    now exists 0, t, f.
  - destruct (IH tables H) as [k [t' [f [H1 [H2 H3]]]]].
    now exists (S k), t', f.
Qed.

(** With distinct names, the name of a table whose processing raised is not
    a key of the dictionary. *)
Lemma aggregate_data_omits ys cs tables names k t n e :
  NoDup names ->
  nth_error tables k = Some t ->
  nth_error names k = Some n ->
  select_table to_numeric t ys cs = Raise e ->
  ~ In n (keys (aggregate_data to_numeric tables names ys cs)).
Proof.
  intros Hnd Ht Hn He Hin. rewrite (aggregate_data_flat _ _ _ _ _ Hnd) in Hin.
  destruct (entries_keys _ _ _ _ _ Hin) as [k' [t' [f [H1 [H2 H3]]]]].
  assert (k' = k).
  { apply (proj1 (NoDup_nth_error names) Hnd).
    - apply nth_error_Some. congruence.
    - congruence. }
  subst k'. congruence.
Qed.

(** Each turn of the loop adds at most one item. *)
Lemma length_dict_set {V : Type} k (v : V) d : length (dict_set k v d) <= S (length d).
Proof.
  induction d as [|[k' v'] d IH]; simpl; [lia|].
  destruct (String.eqb k' k); simpl; lia.
Qed.

Lemma length_aggregate_loop ys cs names : forall tables i d,
  length (aggregate_loop to_numeric i tables names ys cs d)
  <= length d + length tables.
Proof.
  induction tables as [|t tables IH]; intros i d; cbn [aggregate_loop length];
    [lia|].
  specialize (IH (S i) (aggregate_step to_numeric i t names ys cs d)).
  assert (length (aggregate_step to_numeric i t names ys cs d) <= S (length d)).
  { unfold aggregate_step.
    destruct (select_table to_numeric t ys cs); cbn [rbind]; [|lia].
    destruct (list_getitem names i); cbn [rbind]; [|lia].
    apply length_dict_set. }
  lia.
Qed.

(** C6: when the processing of the table at one position fails, while the
    tables before and after it are processed and the names are distinct and
    as many as the tables, the dictionary holds the other tables under their
    names, in order; it has one item fewer than there are tables, and the
    name of the failed table is not one of its keys. *)
Theorem aggregator_omits_failed_table
    pre bad post npre n npost fpre fpost e :
  NoDup (npre ++ n :: npost) ->
  length npre = length pre ->
  length npost = length post ->
  select_table to_numeric bad years components = Raise e ->
  Forall2 (fun t f => select_table to_numeric t years components = Ok f) pre fpre ->
  Forall2 (fun t f => select_table to_numeric t years components = Ok f) post fpost ->
  aggregate_data to_numeric (pre ++ bad :: post) (npre ++ n :: npost)
                 years components
    = combine npre fpre ++ combine npost fpost
  /\ length (aggregate_data to_numeric (pre ++ bad :: post) (npre ++ n :: npost)
                            years components)
     = length (pre ++ bad :: post) - 1
  /\ ~ In n (keys (aggregate_data to_numeric (pre ++ bad :: post)
                                  (npre ++ n :: npost) years components)).
Proof.
  intros Hnd Hpre Hpost Hbad Hfpre Hfpost.
  assert (E : aggregate_data to_numeric (pre ++ bad :: post) (npre ++ n :: npost)
                years components
              = combine npre fpre ++ combine npost fpost).
  { rewrite (aggregate_data_flat _ _ _ _ _ Hnd).
    rewrite (combine_app_same _ _ _ _ Hpre), flat_map_app.
    cbn [combine flat_map]. unfold entry at 2. cbn [fst snd]. rewrite Hbad.
    cbn [app].
    now rewrite (entries_all_ok _ _ _ _ _ _ Hpre Hfpre),
                (entries_all_ok _ _ _ _ _ _ Hpost Hfpost). }
  pose proof (Forall2_length Hfpre) as L1.
  pose proof (Forall2_length Hfpost) as L2.
  rewrite E. split; [reflexivity|]. split.
  - rewrite !length_app, !length_combine. cbn [length]. lia.
  - unfold keys. rewrite map_app. fold (keys (combine npre fpre)).
    fold (keys (combine npost fpost)).
    rewrite !keys_combine by congruence.
    exact (NoDup_remove_2 _ _ _ Hnd).
Qed.

End AggregatorClaims.

Lemma aggregator_omits_failed_table_witness :
  keys (aggregate_data read_decimal
          [sample_table; sample_empty; sample_table]
          ["Aggregate"; "Ontario"; "Quebec"] years components)
  = ["Aggregate"; "Quebec"].
Proof.
  destruct (aggregator_omits_failed_table read_decimal
              [sample_table] sample_empty [sample_table]
              ["Aggregate"] "Ontario" ["Quebec"]
              [frame_of (select_table read_decimal sample_table years components)]
              [frame_of (select_table read_decimal sample_table years components)]
              IndexError) as [E _].
  - apply is_unique_NoDup. reflexivity.
  - reflexivity.
  - reflexivity.
  - reflexivity.
  - constructor; [reflexivity | constructor].
  - constructor; [reflexivity | constructor].
  - cbn [app] in E. rewrite E. reflexivity.
Defined.

(** ** Duplicate row labels *)

Lemma isin_cell_true x l : isin cell_eqb x l = true <-> In x l.
Proof.
  unfold isin. rewrite existsb_exists. split.
  - intros [y [Hy E]]. apply cell_eqb_eq in E. now subst.
  - intros H. exists x. split; [exact H | now apply cell_eqb_eq].
Qed.

Lemma select_map_filter {A : Type} (p : A -> bool) l :
  select (map p l) l = filter p l.
Proof.
  induction l as [|x l IH]; simpl; [reflexivity|].
  destruct (p x); now rewrite IH.
Qed.

Lemma filter_twice_not_unique (p : cell -> bool) l : forall idx i j,
  i < j ->
  nth_error idx i = Some l -> nth_error idx j = Some l ->
  p l = true ->
  is_unique cell_eqb (filter p idx) = false.
Proof.
  induction idx as [|x idx IH]; intros i j Hij Hi Hj Hp.
  - destruct i; discriminate.
  - destruct j as [|j]; [lia|]. cbn [nth_error] in Hj.
    destruct i as [|i].
    + cbn in Hi. injection Hi as ->. cbn [filter]. rewrite Hp.
      cbn [is_unique].
      assert (H : isin cell_eqb l (filter p idx) = true).
      { apply isin_cell_true, filter_In. split; [|exact Hp].
        eapply nth_error_In. exact Hj. }
      now rewrite H.
    + cbn [nth_error] in Hi.
      assert (H : is_unique cell_eqb (filter p idx) = false)
        by (apply (IH i j); auto; lia).
      cbn [filter]. destruct (p x); [|exact H].
      cbn [is_unique]. rewrite H. apply andb_false_r.
Qed.

Section DuplicateLabels.

Variable to_numeric : string -> option Z.

(** When the cleaned table carries one label in two rows and that label is
    selected by the filter of lines 92-93, the reindex of line 95 raises
    [ValueError]. *)
Lemma duplicate_index_raises table clean_df l i j :
  clean_table to_numeric table = Ok clean_df ->
  i < j ->
  nth_error (index clean_df) i = Some l ->
  nth_error (index clean_df) j = Some l ->
  is_desired components l = true ->
  reindex (filter_rows clean_df (map (is_desired components) (index clean_df)))
          components (Num 0) = Raise ValueError
  /\ select_table to_numeric table years components = Raise ValueError.
Proof.
  intros Hclean Hij Hi Hj Hl.
  assert (R : reindex (filter_rows clean_df
                         (map (is_desired components) (index clean_df)))
                      components (Num 0) = Raise ValueError).
  { unfold reindex, filter_rows. cbn [index columns rows].
    rewrite select_map_filter.
    pose proof (filter_twice_not_unique (is_desired components) l
                  (index clean_df) i j Hij Hi Hj Hl) as Hu.
    destruct (list_eqb cell_eqb _ (map Str components)) eqn:E.
    - apply (list_eqb_eq _ cell_eqb_eq) in E. rewrite E in Hu. discriminate.
    - now rewrite Hu. }
  split; [exact R|].
  unfold select_table. rewrite Hclean. cbn [rbind]. now rewrite R.
Qed.

(** C10: when two rows of a raw table have the same normalized label and
    that label is selected by the filter of lines 92-93, the processing of
    the table raises (in the reindex of line 95, with [ValueError], when the
    cleaning itself went through); the handler leaves the dictionary as it
    was, so no item is made for the table: with distinct names the
    jurisdiction's name is not a key of the result. *)
Theorem duplicate_labels_omit_jurisdiction table i j r1 r2 l :
  well_formed table = true ->
  i < j ->
  nth_error (rows table) i = Some r1 ->
  nth_error (rows table) j = Some r2 ->
  clean_label (hd NaN r1) = l ->
  clean_label (hd NaN r2) = l ->
  is_desired components l = true ->
  (forall clean_df,
      clean_table to_numeric table = Ok clean_df ->
      reindex (filter_rows clean_df
                 (map (is_desired components) (index clean_df)))
              components (Num 0) = Raise ValueError)
  /\ (exists e, select_table to_numeric table years components = Raise e)
  /\ (forall k names d,
        aggregate_step to_numeric k table names years components d = d)
  /\ (forall tables names k n,
        NoDup names ->
        nth_error tables k = Some table ->
        nth_error names k = Some n ->
        ~ In n (keys (aggregate_data to_numeric tables names years components))).
Proof.
  intros Hwf Hij Hi Hj H1 H2 Hl.
  assert (Hdup : forall clean_df,
             clean_table to_numeric table = Ok clean_df ->
             reindex (filter_rows clean_df
                        (map (is_desired components) (index clean_df)))
                     components (Num 0) = Raise ValueError
             /\ select_table to_numeric table years components = Raise ValueError).
  { intros clean_df Hclean.
    apply (duplicate_index_raises table clean_df l i j Hclean Hij); [| |exact Hl].
    - destruct (clean_table_closed_form to_numeric table Hwf)
        as [[_ E]|[_ [e E]]]; [|congruence].
      rewrite E in Hclean. injection Hclean as <-. unfold cleaned. cbn [index].
      rewrite nth_error_map, Hi. cbn. now rewrite H1.
    - destruct (clean_table_closed_form to_numeric table Hwf)
        as [[_ E]|[_ [e E]]]; [|congruence].
      rewrite E in Hclean. injection Hclean as <-. unfold cleaned. cbn [index].
      rewrite nth_error_map, Hj. cbn. now rewrite H2. }
  assert (S : exists e, select_table to_numeric table years components = Raise e).
  { destruct (clean_table to_numeric table) as [clean_df|e] eqn:E.
    - exists ValueError. exact (proj2 (Hdup clean_df eq_refl)).
    - exists e. unfold select_table. now rewrite E. }
  split; [intros clean_df Hclean; exact (proj1 (Hdup clean_df Hclean))|].
  split; [exact S|]. destruct S as [e S]. split.
  - intros k names d. unfold aggregate_step. now rewrite S.
  - intros tables names k n Hnd Ht Hn.
    exact (aggregate_data_omits to_numeric _ _ _ _ _ _ _ _ Hnd Ht Hn S).
Qed.

End DuplicateLabels.

Lemma duplicate_labels_omit_jurisdiction_witness :
  reindex (filter_rows (frame_of (clean_table read_decimal sample_duplicate))
             (map (is_desired components)
                  (index (frame_of (clean_table read_decimal sample_duplicate)))))
          components (Num 0) = Raise ValueError
  /\ aggregate_data read_decimal [sample_table; sample_duplicate]
                    ["Aggregate"; "Ontario"] years components
     = [("Aggregate",
         frame_of (select_table read_decimal sample_table years components))].
Proof.
  destruct (duplicate_labels_omit_jurisdiction read_decimal sample_duplicate
              0 1 [Str "Equalization 1"; Str "$100"]
              [Str "Equalization 2"; Str "$200"] (Str "Equalization"))
    as [H _].
  - reflexivity.
  - lia.
  - reflexivity.
  - reflexivity.
  - reflexivity.
  - reflexivity.
  - reflexivity.
  - split; [apply H; reflexivity | reflexivity].
Defined.

(** Two rows whose labels differ only by case are both selected by the
    filter, but they are two different row labels: nothing is raised, and the
    reindex of line 95 keeps the row that is spelled like the canonical
    name. *)
Example labels_differing_by_case :
  select_table read_decimal
    (raw_table ["Item"; "2016-17"] [["EQUALIZATION"; "5"]; ["Equalization"; "7"]])
    ["2016-17"] ["Equalization"]
  = Ok (mkFrame [Str "Equalization"] ["2016-17"] [[Num 7]]).
Proof. reflexivity. Qed.

(** A row whose label differs from the canonical name by case passes the
    filter and is then dropped by the reindex, which compares labels as they
    are: the stored row is the zero fill. *)
Example label_in_other_case :
  select_table read_decimal
    (raw_table ["Item"; "2016-17"] [["EQUALIZATION"; "5"]])
    ["2016-17"] ["Equalization"]
  = Ok (mkFrame [Str "Equalization"] ["2016-17"] [[Num 0]]).
Proof. reflexivity. Qed.

(** ** The pipeline of lines 119-123 *)

Section PipelineClaims.

Variable to_numeric : string -> option Z.

Lemma num_tables_firstn tables : num_tables (firstn 14 tables) = num_tables tables.
Proof. unfold num_tables. rewrite length_firstn. lia. Qed.

Lemma province_names_NoDup tables : NoDup (province_names tables).
Proof.
  unfold province_names. rewrite <- firstn_map.
  assert (H : NoDup (map extract_province_name chart_titles))
    by (apply is_unique_NoDup; vm_compute; reflexivity).
  rewrite <- (firstn_skipn (num_tables tables)) in H.
  exact (NoDup_app_remove_r _ _ H).
Qed.

(** C9: the pipeline processes the first [min(14, len(tables))] tables, each
    under the name drawn from the title at its position; the dictionary has at
    most 14 items, and the tables after the 14th play no part. *)
Theorem pipeline_at_most_14_tables (tables : list Frame) :
  length (firstn (num_tables tables) tables) = Nat.min 14 (length tables)
  /\ length (province_names tables) = Nat.min 14 (length tables)
  /\ data_dict to_numeric tables
     = flat_map (entry to_numeric years components)
                (combine (map extract_province_name chart_titles) tables)
  /\ length (data_dict to_numeric tables) <= 14
  /\ data_dict to_numeric tables = data_dict to_numeric (firstn 14 tables).
Proof.
  assert (L1 : length (firstn (num_tables tables) tables) = Nat.min 14 (length tables)).
  { rewrite length_firstn. unfold num_tables. lia. }
  assert (L2 : length (province_names tables) = Nat.min 14 (length tables)).
  { unfold province_names. rewrite length_map, length_firstn.
    unfold num_tables. cbn [chart_titles length]. lia. }
  split; [exact L1|]. split; [exact L2|]. split; [|split].
  - unfold data_dict.
    rewrite (aggregate_data_flat _ _ _ _ _ (province_names_NoDup tables)).
    f_equal. unfold province_names. rewrite <- firstn_map, <- combine_firstn.
    apply firstn_all2. rewrite length_combine, length_map.
    unfold num_tables. cbn [chart_titles length]. lia.
  - unfold data_dict, aggregate_data.
    pose proof (length_aggregate_loop to_numeric years components
                  (province_names tables)
                  (firstn (num_tables tables) tables) 0 []) as H.
    cbn [length] in H. lia.
  - unfold data_dict, province_names. rewrite num_tables_firstn.
    rewrite firstn_firstn.
    replace (Nat.min (num_tables tables) 14) with (num_tables tables)
      by (unfold num_tables; lia).
    reflexivity.
Qed.

End PipelineClaims.

(** ** The Query Projector *)

Lemma build_long_dataframe_rows dd year inc :
  build_long_dataframe dd year inc
  = rows_for (filter (shown inc) dd) components (fun df comp => value_at df comp year).
Proof.
  unfold build_long_dataframe, rows_for, value_at.
  induction dd as [|[prov df] dd IH]; [reflexivity|].
  cbn [flat_map filter]. rewrite IH. unfold shown at 2. cbn [fst].
  destruct inc; cbn [negb andb orb]; [reflexivity|].
  now destruct (String.eqb (lower prov) "aggregate").
Qed.

Lemma filter_flat_map {A B : Type} (p : B -> bool) (f : A -> list B) l :
  filter p (flat_map f l) = flat_map (fun x => filter p (f x)) l.
Proof.
  induction l as [|x l IH]; cbn; [reflexivity|].
  now rewrite filter_app, IH.
Qed.

Lemma filter_map_comm {A B : Type} (p : B -> bool) (g : A -> B) l :
  filter p (map g l) = map g (filter (fun x => p (g x)) l).
Proof.
  induction l as [|x l IH]; cbn; [reflexivity|].
  destruct (p (g x)); cbn; now rewrite IH.
Qed.

Lemma rows_for_nil items value :
  rows_for items components value = [] -> items = [].
Proof. destruct items as [|item items]; [reflexivity | discriminate]. Qed.

(** The rows handed to the chart, for every query; [KeyError] is what
    [df_long["Component"]] raises when no row was built. *)
Lemma update_graph_rows dd year sel av :
  update_graph dd year sel av
  = match filter (shown (include_of av)) dd with
    | [] => Raise KeyError
    | _ :: _ =>
        Ok (rows_for (filter (shown (include_of av)) dd)
                     (filter (fun comp => isin String.eqb comp sel) components)
                     (fun df comp => value_at df comp year))
    end.
Proof.
  unfold update_graph. fold (include_of av).
  rewrite build_long_dataframe_rows.
  destruct (filter (shown (include_of av)) dd) as [|item items] eqn:E;
    [reflexivity|].
  destruct (rows_for (item :: items) components _) eqn:R.
  - apply rows_for_nil in R. discriminate.
  - rewrite <- R. f_equal. unfold rows_for. rewrite filter_flat_map.
    apply flat_map_ext. intros it.
    now rewrite (filter_map_comm
                   (fun r => isin String.eqb (Component r) sel)
                   (fun comp => mkRow (fst it) comp (value_at (snd it) comp year))).
Qed.

(** C2, as stated, fails on the order of the components: the rows of a
    jurisdiction follow the canonical list, so "Canada Health Transfer" comes
    before "Equalization" although the request names them the other way
    round. *)
Lemma requested_order_not_followed :
  update_graph (data_dict read_decimal [sample_table; sample_table]) "2020-21"
               ["Equalization"; "Canada Health Transfer"] (Some ["include"])
  = Ok [ mkRow "Aggregate" "Canada Health Transfer" (Num 0);
         mkRow "Aggregate" "Equalization" (Num 0);
         mkRow "Newfoundland and Labrador" "Canada Health Transfer" (Num 0);
         mkRow "Newfoundland and Labrador" "Equalization" (Num 0) ]
  /\ update_graph (data_dict read_decimal [sample_table; sample_table]) "2020-21"
               ["Equalization"; "Canada Health Transfer"] (Some ["include"])
     <> Ok (rows_for (data_dict read_decimal [sample_table; sample_table])
                     ["Equalization"; "Canada Health Transfer"]
                     (fun df comp => value_at df comp "2020-21")).
Proof. split; [vm_compute; reflexivity | vm_compute; discriminate]. Qed.

(** C2 (amended): for every query that leaves at least one jurisdiction, the
    rows of the projection are ordered with the jurisdiction as the outer
    key, in the order of the dictionary, and within a jurisdiction the
    requested components appear in the order of the canonical component
    list. *)
Theorem projection_order dd year sel av :
  filter (shown (include_of av)) dd <> [] ->
  update_graph dd year sel av
  = Ok (rows_for (filter (shown (include_of av)) dd)
                 (filter (fun comp => isin String.eqb comp sel) components)
                 (fun df comp => value_at df comp year)).
Proof.
  intros H. rewrite update_graph_rows.
  destruct (filter (shown (include_of av)) dd); [contradiction | reflexivity].
Qed.

Lemma projection_order_witness :
  update_graph [("Ontario", frame_of (select_table read_decimal sample_table
                                                   years components))]
               "2016-17" ["Equalization"; "Canada Health Transfer"] None
  = Ok [ mkRow "Ontario" "Canada Health Transfer" (Num 0);
         mkRow "Ontario" "Equalization" (Num 100) ].
Proof.
  rewrite (projection_order
             [("Ontario", frame_of (select_table read_decimal sample_table
                                                 years components))]
             "2016-17" ["Equalization"; "Canada Health Transfer"] None).
  - vm_compute. reflexivity.
  - cbn. discriminate.
Defined.

(** ** A year outside the canonical list *)

Section StoredColumns.

Variable to_numeric : string -> option Z.
Variables ys cs : list string.

Lemma select_table_columns table out :
  select_table to_numeric table ys cs = Ok out -> columns out = ys.
Proof.
  unfold select_table.
  destruct (clean_table to_numeric table) as [df|]; [|discriminate].
  cbn [rbind]. destruct (reindex _ cs (Num 0)) as [mid|]; [|discriminate].
  cbn [rbind]. intros H. now apply reindex_columns_shape in H.
Qed.

Lemma dict_set_Forall {V : Type} (P : string * V -> Prop) k v d :
  (forall k', P (k', v)) -> Forall P d -> Forall P (dict_set k v d).
Proof.
  intros Hv. induction 1 as [|[k' v'] d Hx Hd IH]; cbn.
  - constructor; [apply Hv | constructor].
  - destruct (String.eqb k' k); constructor; auto.
Qed.

Lemma aggregate_loop_columns names : forall tables i d,
  Forall (fun item : string * Frame => columns (snd item) = ys) d ->
  Forall (fun item : string * Frame => columns (snd item) = ys)
         (aggregate_loop to_numeric i tables names ys cs d).
Proof.
  induction tables as [|t tables IH]; intros i d Hd; [exact Hd|].
  cbn [aggregate_loop]. apply IH. unfold aggregate_step.
  destruct (select_table to_numeric t ys cs) as [out|] eqn:E; [|exact Hd].
  cbn [rbind]. destruct (list_getitem names i); [|exact Hd].
  cbn [rbind]. apply dict_set_Forall; [|exact Hd].
  intros k'. cbn [snd]. exact (select_table_columns _ _ E).
Qed.

(** Every table of the dictionary has the requested years as its columns. *)
Lemma aggregate_data_columns tables names :
  Forall (fun item : string * Frame => columns (snd item) = ys)
         (aggregate_data to_numeric tables names ys cs).
Proof. apply aggregate_loop_columns. constructor. Qed.

End StoredColumns.

Lemma value_at_absent_year df comp year :
  ~ In year (columns df) -> value_at df comp year = Num 0.
Proof.
  intros H. unfold value_at, at_.
  rewrite (find_index_notin _ string_eqb_eq _ _ H).
  now destruct (find_index cell_eqb (Str comp) (index df)).
Qed.

Lemma rows_for_ext items comps (v1 v2 : Frame -> string -> cell) :
  Forall (fun item : string * Frame => forall comp, v1 (snd item) comp = v2 (snd item) comp)
         items ->
  rows_for items comps v1 = rows_for items comps v2.
Proof.
  unfold rows_for. induction 1 as [|item items Hx Hd IH]; cbn; [reflexivity|].
  rewrite IH. f_equal. apply map_ext. intros comp. now rewrite Hx.
Qed.

(** C1, as stated, fails: for the year "1999-00" the Query Projector raises
    nothing and returns a projection, with the value 0 in every row. *)
Lemma year_1999_returns_rows :
  update_graph (data_dict read_decimal [sample_table; sample_table]) "1999-00"
               ["Equalization"] None
  = Ok [ mkRow "Aggregate" "Equalization" (Num 0);
         mkRow "Newfoundland and Labrador" "Equalization" (Num 0) ].
Proof. vm_compute. reflexivity. Qed.

(** C1 (amended): for a fiscal year that is not in the canonical list, a
    query that leaves at least one jurisdiction is answered as for any year,
    with the value 0 in every row: the failed lookup is caught (lines
    139-142), and no error about the year is raised. *)
Theorem year_outside_list_gives_zero
    (to_numeric : string -> option Z) tables names year sel av :
  ~ In year years ->
  filter (shown (include_of av))
         (aggregate_data to_numeric tables names years components) <> [] ->
  update_graph (aggregate_data to_numeric tables names years components)
               year sel av
  = Ok (rows_for (filter (shown (include_of av))
                    (aggregate_data to_numeric tables names years components))
                 (filter (fun comp => isin String.eqb comp sel) components)
                 (fun _ _ => Num 0)).
Proof.
  intros Hy Hne. rewrite update_graph_rows.
  destruct (filter _ _) as [|item items] eqn:E; [contradiction|].
  f_equal. apply rows_for_ext.
  assert (H : Forall (fun item : string * Frame => columns (snd item) = years)
                     (item :: items)).
  { rewrite <- E. apply Forall_forall. intros x Hx.
    apply filter_In in Hx. destruct Hx as [Hx _].
    pose proof (aggregate_data_columns to_numeric years components tables names) as F.
    rewrite Forall_forall in F. now apply F. }
  eapply Forall_impl; [|exact H].
  intros x Hx comp. apply value_at_absent_year. now rewrite Hx.
Qed.

Lemma year_outside_list_gives_zero_witness :
  update_graph (aggregate_data read_decimal [sample_table] ["Ontario"]
                               years components)
               "1999-00" ["Equalization"] (Some ["include"])
  = Ok [ mkRow "Ontario" "Equalization" (Num 0) ].
Proof.
  rewrite (year_outside_list_gives_zero read_decimal [sample_table] ["Ontario"]
             "1999-00" ["Equalization"] (Some ["include"])).
  - vm_compute. reflexivity.
  - intros H. cbn in H.
    repeat (destruct H as [H|H]; [discriminate|]). exact H.
  - vm_compute. discriminate.
Defined.

(** ** The store-passing versions *)

Lemma deref_old h t l : l < length h -> deref (h ++ t) l = deref h l.
Proof. intros H. unfold deref. now apply app_nth1. Qed.

Lemma deref_new h f t : deref (h ++ f :: t) (length h) = f.
Proof. unfold deref. now rewrite nth_middle. Qed.

Lemma set_nth_new (h : heap) f g t :
  set_nth (length h) g (h ++ f :: t) = h ++ g :: t.
Proof. induction h as [|x h IH]; cbn; [reflexivity | now rewrite IH]. Qed.

Lemma deref_dict_old h t d :
  Forall (fun kv : string * loc => snd kv < length h) d ->
  deref_dict (h ++ t) d = deref_dict h d.
Proof.
  unfold deref_dict. induction 1 as [|[k l] d Hl Hd IH]; cbn; [reflexivity|].
  cbn in Hl. now rewrite IH, deref_old.
Qed.

Lemma deref_dict_set h k l d :
  deref_dict h (dict_set k l d) = dict_set k (deref h l) (deref_dict h d).
Proof.
  unfold deref_dict. induction d as [|[k' l'] d IH]; cbn; [reflexivity|].
  destruct (String.eqb k' k); cbn; [reflexivity | now rewrite IH].
Qed.

Lemma dict_set_bound (n : nat) k l d :
  l < n ->
  Forall (fun kv : string * loc => snd kv < n) d ->
  Forall (fun kv : string * loc => snd kv < n) (dict_set k l d).
Proof.
  intros Hl. induction 1 as [|[k' l'] d Hx Hd IH]; cbn.
  - constructor; [exact Hl | constructor].
  - destruct (String.eqb k' k); constructor; auto.
Qed.

Lemma bind_load {B : Type} l (k : Frame -> M B) h :
  bind (load l) k h = k (deref h l) h.
Proof. reflexivity. Qed.

Lemma bind_lift_ok {A B : Type} (a : A) (k : A -> M B) h :
  bind (lift (Ok a)) k h = k a h.
Proof. reflexivity. Qed.

Lemma bind_lift_raise {A B : Type} e (k : A -> M B) h :
  bind (lift (Raise e)) k h = (h, Raise e).
Proof. reflexivity. Qed.

Lemma bind_new {B : Type} f (k : loc -> M B) h :
  bind (new f) k h = k (length h) (h ++ [f]).
Proof. reflexivity. Qed.

Lemma bind_store {B : Type} l f (k : unit -> M B) h :
  bind (store l f) k h = k tt (set_nth l f h).
Proof. reflexivity. Qed.

Section StorePassingProofs.

Variable to_numeric : string -> option Z.

(** The loop of lines 77-78 changes the frame [df] refers to, and no other
    frame. *)
Lemma coerce_loop_st h0 : forall todo g,
  exists g',
    for_each_st todo (coerce_column_st to_numeric (length h0)) (h0 ++ [g])
    = (h0 ++ [g'],
       match for_each todo (coerce_column to_numeric) g with
       | Ok _ => Ok tt
       | Raise e => Raise e
       end)
    /\ forall g2, for_each todo (coerce_column to_numeric) g = Ok g2 -> g' = g2.
Proof.
  induction todo as [|col todo IH]; intros g.
  - exists g. split; [reflexivity|]. cbn. now intros g2 H; injection H.
  - cbn [for_each_st for_each]. unfold bind at 1, coerce_column_st at 1.
    rewrite bind_load, deref_new. unfold coerce_column at 1 3.
    destruct (getitem g col) as [s|e]; cbn [rbind].
    + rewrite bind_lift_ok. unfold store. rewrite set_nth_new.
      destruct (IH (setitem g col (map (parse_cell to_numeric) s))) as [g' [H1 H2]].
      exists g'. split; [exact H1 | exact H2].
    + rewrite bind_lift_raise.
      exists g. split; [reflexivity | discriminate].
Qed.

(** [clean_table_st] allocates new frames and leaves the frames of the heap
    it starts from as they are; its outcome is that of [clean_table] on the
    frame behind its argument. *)
Lemma clean_table_st_spec h df :
  exists trail r,
    clean_table_st to_numeric df h = (h ++ trail, r)
    /\ outcome (h ++ trail, r) = clean_table to_numeric (deref h df)
    /\ forall l, r = Ok l -> l < length (h ++ trail).
Proof.
  unfold clean_table_st, clean_table.
  rewrite bind_load.
  destruct (columns_0 (deref h df)) as [c0|e]; cbn [rbind].
  2:{ rewrite bind_lift_raise. exists [], (Raise e). rewrite app_nil_r.
      repeat split. discriminate. }
  rewrite bind_lift_ok, bind_new, bind_load, deref_new.
  destruct (getitem (rename (deref h df) c0 "Component") "Component") as [s|e];
    cbn [rbind].
  2:{ rewrite bind_lift_raise. eexists [_], (Raise e). repeat split. discriminate. }
  rewrite bind_lift_ok, bind_store, set_nth_new, bind_load, deref_new.
  set (f1 := setitem (rename (deref h df) c0 "Component") "Component"
                     (map clean_label s)).
  destruct (set_index f1 "Component") as [g|e]; cbn [rbind].
  2:{ rewrite bind_lift_raise. eexists [_], (Raise e). repeat split. discriminate. }
  rewrite bind_lift_ok, bind_new, bind_load, deref_new.
  rewrite bind_new, bind_load, deref_new.
  set (g3 := replace g (Str "-") (Num 0)).
  destruct (coerce_loop_st ((h ++ [f1]) ++ [g]) (columns g3) g3) as [g' [H1 H2]].
  unfold bind at 1. rewrite H1.
  destruct (for_each _ _ g3) as [g2|e] eqn:E.
  - exists [f1; g; g'], (Ok (length ((h ++ [f1]) ++ [g]))).
    unfold ret. rewrite <- !app_assoc. cbn [app]. split; [reflexivity|].
    split.
    + unfold outcome. cbn [fst snd].
      replace (h ++ [f1; g; g']) with ((h ++ [f1; g]) ++ [g'])
        by (now rewrite <- app_assoc).
      rewrite deref_new. f_equal. now apply H2.
    + intros l Hl. injection Hl as <-. rewrite !length_app. cbn. lia.
  - exists [f1; g; g'], (Raise e).
    rewrite <- !app_assoc. cbn [app]. repeat split. discriminate.
Qed.

End StorePassingProofs.

Section AggregatorStore.

Variable to_numeric : string -> option Z.
Variables names ys cs : list string.

Lemma bound_weaken (h t : heap) (d : dict loc) :
  Forall (fun kv : string * loc => snd kv < length h) d ->
  Forall (fun kv : string * loc => snd kv < length (h ++ t)) d.
Proof.
  intros H. eapply Forall_impl; [|exact H].
  intros kv Hkv. rewrite length_app. cbn in *. lia.
Qed.

(** One turn of the loop: new frames are allocated, the frames that exist
    stay as they are, and the dictionary is updated as on frame values. *)
Lemma aggregate_step_st_spec i table d h :
  Forall (fun kv : string * loc => snd kv < length h) d ->
  exists trail d',
    aggregate_step_st to_numeric i table names ys cs d h = (h ++ trail, Ok d')
    /\ deref_dict (h ++ trail) d'
       = aggregate_step to_numeric i (deref h table) names ys cs (deref_dict h d)
    /\ Forall (fun kv : string * loc => snd kv < length (h ++ trail)) d'.
Proof.
  intros Hd. unfold aggregate_step_st, try_except, aggregate_step, select_table.
  destruct (clean_table_st_spec to_numeric h table) as [t1 [r [Hrun [Hout Hb]]]].
  unfold bind at 1. rewrite Hrun. rewrite <- Hout. unfold outcome. cbn [fst snd].
  destruct r as [l1|e]; cbn [rbind].
  2:{ exists t1, d. split; [reflexivity|]. split.
      - now apply deref_dict_old.
      - now apply bound_weaken. }
  set (h1 := h ++ t1). set (f := deref h1 l1).
  rewrite bind_load. fold f. rewrite bind_new, bind_load, deref_new.
  set (sel := filter_rows f (map (is_desired cs) (index f))).
  destruct (reindex sel cs (Num 0)) as [g|e]; cbn [rbind].
  2:{ rewrite bind_lift_raise. exists (t1 ++ [sel]), d. unfold h1.
      rewrite app_assoc. split; [reflexivity|]. rewrite <- app_assoc. split.
      - now apply deref_dict_old.
      - now apply bound_weaken. }
  rewrite bind_lift_ok, bind_new, bind_load, deref_new.
  destruct (reindex_columns g ys (Num 0)) as [g2|e]; cbn [rbind].
  2:{ rewrite bind_lift_raise. exists (t1 ++ [sel; g]), d. unfold h1.
      rewrite <- !app_assoc. cbn [app]. split; [reflexivity|]. split.
      - now apply deref_dict_old.
      - now apply bound_weaken. }
  rewrite bind_lift_ok, bind_new.
  destruct (list_getitem names i) as [name|e]; cbn [rbind].
  2:{ rewrite bind_lift_raise. exists (t1 ++ [sel; g; g2]), d. unfold h1.
      rewrite <- !app_assoc. cbn [app]. split; [reflexivity|]. split.
      - now apply deref_dict_old.
      - now apply bound_weaken. }
  rewrite bind_lift_ok. unfold ret.
  exists (t1 ++ [sel; g; g2]), (dict_set name (length ((h1 ++ [sel]) ++ [g])) d).
  unfold h1. rewrite <- !app_assoc. cbn [app]. split; [reflexivity|]. split.
  - rewrite deref_dict_set. f_equal.
    + replace (h ++ t1 ++ [sel; g; g2]) with ((h ++ t1 ++ [sel; g]) ++ [g2])
        by (rewrite <- !app_assoc; reflexivity).
      apply deref_new.
    + now apply deref_dict_old.
  - apply dict_set_bound.
    + rewrite !length_app. cbn. lia.
    + now apply bound_weaken.
Qed.

Lemma aggregate_loop_st_spec : forall tables i d h,
  Forall (fun l => l < length h) tables ->
  Forall (fun kv : string * loc => snd kv < length h) d ->
  exists trail d',
    aggregate_loop_st to_numeric i tables names ys cs d h = (h ++ trail, Ok d')
    /\ deref_dict (h ++ trail) d'
       = aggregate_loop to_numeric i (map (deref h) tables) names ys cs
                        (deref_dict h d)
    /\ Forall (fun kv : string * loc => snd kv < length (h ++ trail)) d'.
Proof.
  induction tables as [|t tables IH]; intros i d h Ht Hd.
  - exists [], d. rewrite app_nil_r. repeat split. exact Hd.
  - inversion Ht as [|? ? Hlt Hrest]; subst.
    cbn [aggregate_loop_st map aggregate_loop].
    destruct (aggregate_step_st_spec i t d h Hd) as [t1 [d1 [Hrun [Hval Hb]]]].
    unfold bind at 1. rewrite Hrun.
    assert (Hrest' : Forall (fun l => l < length (h ++ t1)) tables).
    { eapply Forall_impl; [|exact Hrest]. intros l Hl.
      rewrite length_app. cbn in *. lia. }
    destruct (IH (S i) d1 (h ++ t1) Hrest' Hb) as [t2 [d2 [Hrun2 [Hval2 Hb2]]]].
    exists (t1 ++ t2), d2. rewrite app_assoc. split; [exact Hrun2|].
    split; [|exact Hb2].
    rewrite Hval2, Hval. f_equal.
    apply map_ext_in. intros l Hl. apply deref_old.
    rewrite Forall_forall in Hrest. now apply Hrest.
Qed.

(** The dictionary [aggregate_data_st] builds, read through the heap it ends
    with, is the dictionary of [aggregate_data] on the frames behind the
    tables; the frames of the starting heap are left as they are. *)
Lemma aggregate_data_st_spec tables h :
  Forall (fun l => l < length h) tables ->
  exists trail,
    fst (aggregate_data_st to_numeric tables names ys cs h) = h ++ trail
    /\ dataset (aggregate_data_st to_numeric tables names ys cs h)
       = aggregate_data to_numeric (map (deref h) tables) names ys cs.
Proof.
  intros Ht. unfold aggregate_data_st, aggregate_data.
  destruct (aggregate_loop_st_spec tables 0 [] h Ht (Forall_nil _))
    as [trail [d' [Hrun [Hval _]]]].
  exists trail. rewrite Hrun. split; [reflexivity|]. exact Hval.
Qed.

End AggregatorStore.

(** C8: two runs of the Table Cleaner on the same table give the same
    outcome (the same frame, or the same exception), which is the outcome of
    [clean_table] on the table, whatever else the heap holds; in particular
    when the second run starts from the heap the first one left: neither run
    changes the table, and the second run leaves the frame returned by the
    first as it is. *)
Theorem clean_table_twice (to_numeric : string -> option Z) (h : heap) (df : loc) :
  df < length h ->
  let run1 := clean_table_st to_numeric df h in
  let run2 := clean_table_st to_numeric df (fst run1) in
  deref (fst run1) df = deref h df
  /\ deref (fst run2) df = deref h df
  /\ outcome run1 = clean_table to_numeric (deref h df)
  /\ outcome run2 = outcome run1
  /\ outcome (fst run2, snd run1) = outcome run1
  /\ (forall h' df', deref h' df' = deref h df ->
                     outcome (clean_table_st to_numeric df' h') = outcome run1).
Proof.
  intros Hdf run1 run2. subst run2 run1.
  destruct (clean_table_st_spec to_numeric h df) as [t1 [r1 [E1 [O1 B1]]]].
  rewrite E1. cbn [fst snd].
  destruct (clean_table_st_spec to_numeric (h ++ t1) df) as [t2 [r2 [E2 [O2 B2]]]].
  rewrite E2. cbn [fst snd].
  assert (D1 : deref (h ++ t1) df = deref h df) by now apply deref_old.
  split; [exact D1|]. split.
  - rewrite deref_old; [exact D1|]. rewrite length_app. lia.
  - split; [exact O1|]. split; [|split].
    + rewrite O2, O1. now rewrite D1.
    + unfold outcome. cbn [fst snd]. destruct r1 as [l|e]; [|reflexivity].
      f_equal. apply deref_old. now apply B1.
    + intros h' df' Hsame.
      destruct (clean_table_st_spec to_numeric h' df') as [t3 [r3 [E3 [O3 _]]]].
      rewrite E3, O3, O1. now rewrite Hsame.
Qed.

Lemma clean_table_twice_witness :
  outcome (clean_table_st read_decimal 0
             (fst (clean_table_st read_decimal 0 [sample_table])))
  = Ok (mkFrame [Str "Equalization"] ["2016-17"; "2017-18"] [[Num 100; Num 0]]).
Proof.
  destruct (clean_table_twice read_decimal [sample_table] 0) as [_ [_ [H1 [H2 _]]]].
  - cbn. lia.
  - rewrite H2, H1. reflexivity.
Defined.

(** C7: two runs of the Aggregator on the same tables and names give the
    same dictionary, which is the one [aggregate_data] computes from the
    tables, whatever else the heap holds; in particular when the second run
    starts from the heap the first one left.  With distinct names the items
    of the dictionary are the processed tables in the order of the input
    sequence, each under the name at its position. *)
Theorem aggregator_deterministic (to_numeric : string -> option Z)
    (h : heap) (tables : list loc) (names : list string) :
  Forall (fun l => l < length h) tables ->
  let run1 := aggregate_data_st to_numeric tables names years components h in
  let run2 := aggregate_data_st to_numeric tables names years components (fst run1) in
  dataset run2 = dataset run1
  /\ (forall h' tables',
        Forall (fun l => l < length h') tables' ->
        map (deref h') tables' = map (deref h) tables ->
        dataset (aggregate_data_st to_numeric tables' names years components h')
        = dataset run1)
  /\ dataset run1
     = aggregate_data to_numeric (map (deref h) tables) names years components
  /\ (NoDup names ->
      dataset run1
      = flat_map (entry to_numeric years components)
                 (combine names (map (deref h) tables))).
Proof.
  intros Ht run1 run2. subst run2 run1.
  destruct (aggregate_data_st_spec to_numeric names years components tables h Ht)
    as [t1 [E1 D1]].
  assert (Ht' : Forall (fun l => l < length (h ++ t1)) tables).
  { eapply Forall_impl; [|exact Ht]. intros l Hl. rewrite length_app.
    cbn in *. lia. }
  rewrite E1.
  destruct (aggregate_data_st_spec to_numeric names years components tables
              (h ++ t1) Ht') as [t2 [E2 D2]].
  split; [|split; [|split]].
  - rewrite D2, D1. f_equal. apply map_ext_in. intros l Hl.
    apply deref_old. rewrite Forall_forall in Ht. now apply Ht.
  - intros h' tables' Ht2 Hsame.
    destruct (aggregate_data_st_spec to_numeric names years components tables'
                h' Ht2) as [t3 [_ D3]].
    rewrite D3, D1. now rewrite Hsame.
  - exact D1.
  - intros Hnd. rewrite D1. now apply aggregate_data_flat.
Qed.

Lemma aggregator_deterministic_witness :
  keys (dataset (aggregate_data_st read_decimal [0; 1; 2]
                   ["Aggregate"; "Ontario"; "Quebec"] years components
                   [sample_table; sample_duplicate; sample_blank]))
  = ["Aggregate"; "Quebec"].
Proof.
  destruct (aggregator_deterministic read_decimal
              [sample_table; sample_duplicate; sample_blank] [0; 1; 2]
              ["Aggregate"; "Ontario"; "Quebec"]) as [_ [_ [_ H]]].
  - repeat constructor.
  - rewrite H; [reflexivity|]. apply is_unique_NoDup. reflexivity.
Defined.

(** ** The end-to-end scenario of the specification, section 8 *)

Example end_to_end_names :
  map extract_province_name
      ["Provinces and Territories"; "Federal Support to Ontario"]
  = ["Aggregate"; "Ontario"].
Proof. reflexivity. Qed.

Example end_to_end_2017 :
  update_graph
    (aggregate_data read_decimal [sample_table; sample_table]
                    ["Aggregate"; "Ontario"] years components)
    "2017-18" ["Equalization"] (Some ["include"])
  = Ok [ mkRow "Aggregate" "Equalization" (Num 0);
         mkRow "Ontario" "Equalization" (Num 0) ].
Proof. vm_compute. reflexivity. Qed.

Example end_to_end_2016 :
  update_graph
    (aggregate_data read_decimal [sample_table; sample_table]
                    ["Aggregate"; "Ontario"] years components)
    "2016-17" ["Equalization"] (Some ["include"])
  = Ok [ mkRow "Aggregate" "Equalization" (Num 100);
         mkRow "Ontario" "Equalization" (Num 100) ].
Proof. vm_compute. reflexivity. Qed.

(** * Further properties of the code *)

(** ** [clean_table]: exceptions and result *)

Section CleanTableMore.

Variable to_numeric : string -> option Z.

(** In the loop of lines 77-78 a repeated column label raises
    [AttributeError], and nothing else is raised there. *)
Lemma coerce_loop_attribute_error todo : forall df,
  (forall x, In x todo -> In x (columns df)) ->
  (exists x, In x todo /\ 2 <= count_occ_str x (columns df)) ->
  for_each todo (coerce_column to_numeric) df = Raise AttributeError.
Proof.
  induction todo as [|c todo IH]; intros df Hsub [x [Hin Hx]].
  - contradiction.
  - cbn [for_each]. unfold coerce_column at 1. unfold getitem.
    assert (Hc : 1 <= count_occ_str c (columns df)).
    { apply count_occ_str_pos, Hsub. now left. }
    destruct (count_occ_str c (columns df)) as [|[|n]] eqn:Ec; cbn [rbind].
    + lia.
    + destruct (find_index_str_in c (columns df)) as [j Hj].
      { apply Hsub. now left. }
      rewrite Hj. cbn [rbind].
      assert (Hcols : columns (setitem df c
                        (map (parse_cell to_numeric) (column_at df j)))
                      = columns df).
      { unfold setitem. now rewrite Hj. }
      apply IH.
      * intros y Hy. rewrite Hcols. apply Hsub. now right.
      * exists x. rewrite Hcols. split; [|exact Hx].
        destruct Hin as [->|Hin]; [lia | exact Hin].
    + reflexivity.
Qed.

Lemma clean_table_attribute_error df :
  columns df <> [] -> cleanable df = false ->
  clean_table to_numeric df = Raise AttributeError.
Proof.
  destruct df as [idx cols rs]. unfold cleanable. cbn [columns].
  destruct cols as [|c0 cs]; [congruence|].
  intros _ Hc.
  unfold clean_table. cbn [columns_0 columns rbind].
  pose proof (renamed_first c0 cs idx rs) as Hcols.
  set (df0 := mkFrame idx (c0 :: cs) rs) in *.
  set (cs' := renamed_columns df0) in *.
  unfold getitem at 1. rewrite Hcols, count_occ_str_cons_eq.
  destruct (count_occ_str "Component" cs') as [|n] eqn:En; [|reflexivity].
  cbn [find_index]. rewrite String.eqb_refl. cbn [rbind].
  unfold setitem at 1. rewrite Hcols. cbn [find_index]. rewrite String.eqb_refl.
  unfold set_index. cbn [columns find_index].
  rewrite String.eqb_refl. cbn [rbind remove_nth].
  unfold replace at 1. cbn [columns].
  cbn in Hc. apply not_unique_twice in Hc.
  refine (coerce_loop_attribute_error cs' _ _ _).
  - intros x Hx. exact Hx.
  - exact Hc.
Qed.

Lemma cleanable_NoDup df :
  cleanable df = true <->
  columns df <> [] /\
  NoDup (columns (rename df (hd "" (columns df)) "Component")).
Proof.
  destruct df as [idx cols rs]. unfold cleanable. cbn [columns].
  destruct cols as [|c0 cs].
  - split; [discriminate | intros [H _]; congruence].
  - cbn [hd]. rewrite (renamed_first c0 cs idx rs).
    set (cs' := renamed_columns _).
    rewrite andb_true_iff, Nat.eqb_eq, is_unique_NoDup. split.
    + intros [H0 Hu]. split; [discriminate|]. constructor; [|exact Hu].
      intros Hin. apply count_occ_str_pos in Hin. lia.
    + intros [_ Hnd]. inversion Hnd as [|? ? Hn Hu]; subst. split; [|exact Hu].
      now apply count_occ_str_notin.
Qed.

(** X1: [clean_table] raises [IndexError] exactly on a table without
    columns, and [AttributeError] exactly on a table in which, after the
    first column is renamed to "Component", two columns carry the same
    label; it raises nothing else, and it succeeds on every other
    rectangular table. *)
Theorem clean_table_outcomes df :
  well_formed df = true ->
  match clean_table to_numeric df with
  | Ok _ =>
      columns df <> [] /\
      NoDup (columns (rename df (hd "" (columns df)) "Component"))
  | Raise IndexError => columns df = []
  | Raise AttributeError =>
      columns df <> [] /\
      ~ NoDup (columns (rename df (hd "" (columns df)) "Component"))
  | Raise _ => False
  end.
Proof.
  intros Hwf. destruct (cleanable df) eqn:Ec.
  - rewrite (clean_table_cleaned to_numeric df Hwf Ec).
    now apply cleanable_NoDup.
  - destruct (columns df) as [|c0 cs] eqn:Ecols.
    + destruct df as [idx cols rs]. cbn in Ecols. subst cols. reflexivity.
    + assert (Hne : columns df <> []) by (rewrite Ecols; discriminate).
      rewrite (clean_table_attribute_error df Hne Ec).
      split; [discriminate|]. intros Hnd.
      assert (cleanable df = true).
      { apply cleanable_NoDup. rewrite Ecols. split; [discriminate | exact Hnd]. }
      congruence.
Qed.

Lemma cleaned_well_formed df :
  well_formed df = true -> cleanable df = true ->
  well_formed (cleaned to_numeric df) = true.
Proof.
  intros Hwf Hc.
  unfold well_formed, cleaned. cbn [index rows columns].
  rewrite !length_map, Nat.eqb_refl. cbn [andb].
  apply forallb_forall. intros r Hr. apply in_map_iff in Hr.
  destruct Hr as [r0 [<- Hr0]]. rewrite length_map. apply Nat.eqb_eq.
  unfold well_formed in Hwf. apply andb_true_iff in Hwf. destruct Hwf as [_ Hwf].
  rewrite forallb_forall in Hwf. specialize (Hwf r0 Hr0).
  apply Nat.eqb_eq in Hwf.
  destruct df as [idx cols rs]. destruct cols as [|c0 cs]; [discriminate|].
  unfold renamed_columns. cbn [columns] in *. rewrite length_map.
  destruct r0; cbn in *; lia.
Qed.



End CleanTableMore.

Lemma clean_table_outcomes_witness :
  clean_table read_decimal sample_empty = Raise IndexError
  /\ columns sample_empty = [].
Proof.
  pose proof (clean_table_outcomes read_decimal sample_empty eq_refl) as H.
  split; [reflexivity | exact H].
Defined.



(** ** The Label Normalizer on clean names *)

Lemma rstrip_app_nonspace x c :
  isspace c = false -> rstrip (x ++ String c "")%string = (x ++ String c "")%string.
Proof.
  intros Hc. induction x as [|a x IH]; cbn.
  - now rewrite Hc.
  - rewrite IH. destruct (x ++ String c "")%string eqn:E; [|reflexivity].
    destruct x; discriminate.
Qed.

Lemma at_dollar_after c b r :
  isspace c = false -> at_dollar (r ++ String c b)%string = false.
Proof.
  intros Hc. destruct r as [|d r]; cbn.
  - destruct b; [|reflexivity].
    destruct (Ascii.eqb c newline) eqn:E; [|reflexivity].
    apply Ascii.eqb_eq in E. subst c. discriminate.
  - destruct (r ++ String c b)%string eqn:E; [|reflexivity].
    destruct r; discriminate.
Qed.

(** No match of the pattern starts before a character that is neither
    whitespace nor a digit. *)
Lemma match_footnote_before a c b :
  isspace c = false -> isdigit c = false ->
  match_footnote (a ++ String c b)%string = None.
Proof.
  intros Hs Hd. unfold match_footnote, match_spaces_digits.
  rewrite skip_spaces_app.
  destruct (skip_spaces a) as [|x r] eqn:E.
  - cbn. rewrite Hs, Hd. reflexivity.
  - cbn. destruct (isdigit x); [|reflexivity].
    rewrite skip_digits_app.
    destruct (skip_digits r) as [|y r'] eqn:E'.
    + pose proof (at_dollar_after c b "" Hs) as H. cbn [append] in H.
      cbn [skip_digits]. rewrite Hd. now rewrite H.
    + now rewrite (at_dollar_after c b (String y r') Hs).
Qed.

Lemma sub_footnote_before body c m :
  isspace c = false -> isdigit c = false ->
  sub_footnote (body ++ String c m)%string
  = (body ++ String c (sub_footnote m))%string.
Proof.
  intros Hs Hd. induction body as [|a body IH].
  - pose proof (match_footnote_before "" c m Hs Hd) as H. cbn [append] in H.
    cbn [append sub_footnote]. now rewrite H.
  - change (String a body ++ String c m)%string
      with (String a (body ++ String c m)).
    cbn [sub_footnote].
    change (String a (body ++ String c m))
      with (String a body ++ String c m)%string.
    rewrite (match_footnote_before (String a body) c m Hs Hd).
    cbn [append]. now rewrite IH.
Qed.

Lemma sub_footnote_marker m : is_marker m = true -> sub_footnote m = "".
Proof.
  unfold is_marker. destruct m as [|x m]; [discriminate|].
  intros H. cbn [sub_footnote]. unfold match_footnote.
  destruct (match_spaces_digits (String x m)) as [[|y r]|]; try discriminate.
  reflexivity.
Qed.

(** X4: a name that has no leading whitespace and ends in a character that
    is neither whitespace nor a digit is left as it is by the Label
    Normalizer. *)
Theorem normalize_label_clean_name body c :
  isspace c = false -> isdigit c = false ->
  lstrip (body ++ String c "")%string = (body ++ String c "")%string ->
  normalize_label (body ++ String c "")%string = (body ++ String c "")%string.
Proof.
  intros Hs Hd Hl. unfold normalize_label, strip.
  rewrite (sub_footnote_before body c "" Hs Hd). cbn [sub_footnote].
  now rewrite (rstrip_app_nonspace body c Hs).
Qed.

Lemma normalize_label_clean_name_witness :
  normalize_label "Per Capita Allocation (dollars)"
  = "Per Capita Allocation (dollars)".
Proof.
  apply (normalize_label_clean_name "Per Capita Allocation (dollars" ")"%char);
    reflexivity.
Defined.

(** X5: such a name followed by a footnote marker (optional whitespace, then
    one or more digits) is normalized to the name. *)
Theorem normalize_label_drops_marker body c m :
  isspace c = false -> isdigit c = false ->
  lstrip (body ++ String c "")%string = (body ++ String c "")%string ->
  is_marker m = true ->
  normalize_label (body ++ String c m)%string = (body ++ String c "")%string.
Proof.
  intros Hs Hd Hl Hm. unfold normalize_label, strip.
  rewrite (sub_footnote_before body c m Hs Hd), (sub_footnote_marker m Hm).
  now rewrite (rstrip_app_nonspace body c Hs).
Qed.

Lemma normalize_label_drops_marker_witness :
  normalize_label "Territorial Formula Financing  3"
  = "Territorial Formula Financing".
Proof.
  apply (normalize_label_drops_marker "Territorial Formula Financin" "g"%char "  3");
    reflexivity.
Defined.

(** ** The Numeric Coercer: separators and the dash *)

Lemma sub_dollar_comma_idem s :
  sub_dollar_comma (sub_dollar_comma s) = sub_dollar_comma s.
Proof.
  induction s as [|c s IH]; [reflexivity|].
  cbn [sub_dollar_comma].
  destruct (Ascii.eqb c "$" || Ascii.eqb c ",")%bool eqn:E; [exact IH|].
  cbn [sub_dollar_comma]. now rewrite E, IH.
Qed.

Lemma str_neq_cell_eqb s t : s <> t -> cell_eqb (Str s) (Str t) = false.
Proof.
  intros H. destruct (cell_eqb (Str s) (Str t)) eqn:E; [|reflexivity].
  apply cell_eqb_eq in E. congruence.
Qed.

(** X6: a text cell is read like the same cell with every "$" and ","
    taken out, wherever they stand, provided that what is left is not
    exactly "-". *)
Theorem numeric_coercer_ignores_separators (to_numeric : string -> option Z) s :
  sub_dollar_comma s <> "-" ->
  numeric_coercer to_numeric (Str s)
  = numeric_coercer to_numeric (Str (sub_dollar_comma s)).
Proof.
  intros H. unfold numeric_coercer, parse_cell.
  assert (Hs : s <> "-") by (intros ->; now apply H).
  rewrite (str_neq_cell_eqb _ _ Hs), (str_neq_cell_eqb _ _ H).
  cbn [astype_str]. now rewrite sub_dollar_comma_idem.
Qed.

Lemma numeric_coercer_ignores_separators_witness :
  numeric_coercer read_decimal (Str "1,2$34,") = Num 1234.
Proof.
  rewrite (numeric_coercer_ignores_separators read_decimal "1,2$34,").
  - reflexivity.
  - discriminate.
Defined.

(** X7: the dash stands for 0 only when it is the whole cell.  A cell that
    becomes "-" once "$" and "," are taken out (such as "$-") is not
    replaced by line 76; it reaches the parser as "-", and where the parser
    cannot read "-" the cell is missing. *)
Theorem dash_with_separator_is_missing (to_numeric : string -> option Z) s :
  to_numeric "-" = None ->
  s <> "-" ->
  sub_dollar_comma s = "-" ->
  numeric_coercer to_numeric (Str s) = NaN.
Proof.
  intros Hdash Hs Hsub. unfold numeric_coercer, parse_cell, to_numeric_coerce.
  rewrite (str_neq_cell_eqb _ _ Hs). cbn [astype_str].
  now rewrite Hsub, Hdash.
Qed.

Lemma dash_with_separator_is_missing_witness :
  numeric_coercer read_decimal (Str "$-") = NaN.
Proof.
  apply (dash_with_separator_is_missing read_decimal "$-");
    [reflexivity | discriminate | reflexivity].
Defined.

(** ** [aggregate_data] as a pass over names and tables *)

Lemma keys_dict_set {V : Type} k (v : V) d :
  keys (dict_set k v d)
  = if isin String.eqb k (keys d) then keys d else keys d ++ [k].
Proof.
  unfold keys, isin. induction d as [|[k' v'] d IH]; cbn; [reflexivity|].
  rewrite (String.eqb_sym k k').
  destruct (String.eqb k' k) eqn:E; cbn; [reflexivity|].
  rewrite IH. now destruct (existsb (String.eqb k) (map fst d)).
Qed.

Lemma In_dict_set_same {V : Type} k (v : V) d : In (k, v) (dict_set k v d).
Proof.
  induction d as [|[k' v'] d IH]; cbn; [now left|].
  destruct (String.eqb k' k) eqn:E.
  - apply String.eqb_eq in E. subst. now left.
  - right. exact IH.
Qed.

Lemma In_dict_set_other {V : Type} k (v : V) k' v' d :
  k <> k' -> In (k, v) d -> In (k, v) (dict_set k' v' d).
Proof.
  intros Hne. induction d as [|[k0 v0] d IH]; cbn; [contradiction|].
  intros [H|H].
  - injection H as -> ->.
    destruct (String.eqb k k') eqn:E.
    + apply String.eqb_eq in E. contradiction.
    + now left.
  - destruct (String.eqb k0 k'); right; [exact H | now apply IH].
Qed.

Section AggregatorMore.

Variable to_numeric : string -> option Z.
Variables ys cs : list string.

(** The loop goes through the pairs of a name and the table at its
    position; a table beyond the last name raises [IndexError] in the [try]
    and adds nothing. *)
Lemma aggregate_loop_fold names : forall tables i d,
  aggregate_loop to_numeric i tables names ys cs d
  = fold_left (add_table to_numeric ys cs) (combine (skipn i names) tables) d.
Proof.
  induction tables as [|t tables IH]; intros i d.
  - now rewrite combine_nil.
  - cbn [aggregate_loop]. rewrite IH. unfold aggregate_step, list_getitem.
    destruct (nth_error names i) as [n|] eqn:En.
    + rewrite (skipn_nth_error _ _ _ En). cbn [combine fold_left].
      f_equal. unfold add_table. cbn [fst snd].
      now destruct (select_table to_numeric t ys cs).
    + apply nth_error_None in En.
      rewrite !skipn_all2 by lia. cbn [combine fold_left].
      now destruct (select_table to_numeric t ys cs).
Qed.

Lemma aggregate_data_fold tables names :
  aggregate_data to_numeric tables names ys cs
  = fold_left (add_table to_numeric ys cs) (combine names tables) [].
Proof. unfold aggregate_data. now rewrite aggregate_loop_fold. Qed.

(** X8: names and tables are paired position by position: a table with no
    name at its position and a name with no table at its position play no
    part in the result. *)
Theorem aggregate_data_pairs_positions tables names :
  aggregate_data to_numeric tables names ys cs
  = aggregate_data to_numeric (firstn (length names) tables)
                   (firstn (length tables) names) ys cs.
Proof.
  rewrite !aggregate_data_fold. f_equal.
  rewrite (combine_firstn_l names tables) at 1.
  rewrite (combine_firstn_r names (firstn (length names) tables)).
  rewrite length_firstn.
  replace (firstn (Nat.min (length names) (length tables)) names)
    with (firstn (length tables) names); [reflexivity|].
  destruct (Nat.le_ge_cases (length names) (length tables)) as [H|H].
  - rewrite Nat.min_l by exact H. now rewrite !firstn_all2 by lia.
  - now rewrite Nat.min_r by exact H.
Qed.

(** X9: a table whose processing raises leaves no trace: the result is the
    one obtained without that table and without the name at its position,
    whatever the names and the other tables are. *)
Theorem aggregate_data_skips_failed pre bad post npre n npost e :
  length npre = length pre ->
  select_table to_numeric bad ys cs = Raise e ->
  aggregate_data to_numeric (pre ++ bad :: post) (npre ++ n :: npost) ys cs
  = aggregate_data to_numeric (pre ++ post) (npre ++ npost) ys cs.
Proof.
  intros Hlen Hbad. rewrite !aggregate_data_fold.
  rewrite !(combine_app_same _ _ _ _ Hlen), !fold_left_app.
  cbn [combine fold_left]. unfold add_table at 2. cbn [snd].
  now rewrite Hbad.
Qed.

Lemma fold_add_table_keys items : forall d,
  NoDup (keys d) ->
  NoDup (keys (fold_left (add_table to_numeric ys cs) items d))
  /\ forall k, In k (keys (fold_left (add_table to_numeric ys cs) items d)) ->
               In k (keys d) \/ In k (map fst items).
Proof.
  induction items as [|[n t] items IH]; intros d Hd.
  - cbn. auto.
  - cbn [fold_left].
    assert (Hstep : NoDup (keys (add_table to_numeric ys cs d (n, t)))
                    /\ forall k, In k (keys (add_table to_numeric ys cs d (n, t)))
                                 -> In k (keys d) \/ k = n).
    { unfold add_table. cbn [fst snd].
      destruct (select_table to_numeric t ys cs) as [f|]; [|auto].
      rewrite keys_dict_set. destruct (isin String.eqb n (keys d)) eqn:E; [auto|].
      split.
      - apply NoDup_app; [exact Hd | constructor; [intros []|constructor] |].
        intros k Hk [<-|[]]. apply isin_str_true in Hk. congruence.
      - intros k Hk. apply in_app_or in Hk.
        destruct Hk as [Hk|[<-|[]]]; auto. }
    destruct Hstep as [Hnd Hin].
    destruct (IH _ Hnd) as [H1 H2]. split; [exact H1|].
    intros k Hk. destruct (H2 k Hk) as [H|H].
    + destruct (Hin k H) as [H'| ->]; [now left | right; now left].
    + right. now right.
Qed.

(** X10: the keys of the dictionary are pairwise distinct, whether the names
    repeat or not, and each of them is a name that has a table at its
    position. *)
Theorem aggregate_data_keys tables names :
  NoDup (keys (aggregate_data to_numeric tables names ys cs))
  /\ forall k, In k (keys (aggregate_data to_numeric tables names ys cs)) ->
               In k (firstn (length tables) names).
Proof.
  rewrite aggregate_data_fold.
  destruct (fold_add_table_keys (combine names tables) [] (NoDup_nil _))
    as [H1 H2].
  split; [exact H1|]. intros k Hk.
  destruct (H2 k Hk) as [[]|H].
  apply in_map_iff in H. destruct H as [[n t] [<- H]]. cbn [fst].
  rewrite (combine_firstn_r names tables) in H.
  exact (in_combine_l _ _ _ _ H).
Qed.

Lemma fold_add_table_keeps items n f : forall d,
  In (n, f) d ->
  (forall t, In (n, t) items ->
             exists e, select_table to_numeric t ys cs = Raise e) ->
  In (n, f) (fold_left (add_table to_numeric ys cs) items d).
Proof.
  induction items as [|[n' t'] items IH]; intros d Hin Hlater; [exact Hin|].
  cbn [fold_left]. apply IH.
  - unfold add_table. cbn [fst snd].
    destruct (select_table to_numeric t' ys cs) as [f'|] eqn:E; [|exact Hin].
    destruct (String.eqb n n') eqn:En.
    + apply String.eqb_eq in En. subst n'.
      destruct (Hlater t' (or_introl eq_refl)) as [e He]. congruence.
    + apply String.eqb_neq in En. now apply In_dict_set_other.
  - intros t Ht. apply Hlater. now right.
Qed.

(** X11: when a name repeats, the last table processed under it wins: a
    table that is processed is stored under its name unless a later table
    with the same name is processed too. *)
Theorem aggregate_data_last_wins pre t post npre n npost f :
  length npre = length pre ->
  select_table to_numeric t ys cs = Ok f ->
  (forall t', In (n, t') (combine npost post) ->
              exists e, select_table to_numeric t' ys cs = Raise e) ->
  In (n, f) (aggregate_data to_numeric (pre ++ t :: post) (npre ++ n :: npost)
                            ys cs).
Proof.
  intros Hlen Ht Hlater. rewrite aggregate_data_fold.
  rewrite (combine_app_same _ _ _ _ Hlen), fold_left_app.
  cbn [combine fold_left]. apply fold_add_table_keeps; [|exact Hlater].
  unfold add_table. cbn [fst snd]. rewrite Ht. apply In_dict_set_same.
Qed.

End AggregatorMore.

Lemma aggregate_data_skips_failed_witness :
  aggregate_data read_decimal [sample_duplicate; sample_table]
                 ["Ontario"; "Ontario"] years components
  = aggregate_data read_decimal [sample_table] ["Ontario"] years components.
Proof.
  apply (aggregate_data_skips_failed read_decimal years components
           [] sample_duplicate [sample_table] [] "Ontario" ["Ontario"] ValueError);
    reflexivity.
Defined.

Lemma aggregate_data_last_wins_witness :
  In ("Ontario", frame_of (select_table read_decimal sample_blank years components))
     (aggregate_data read_decimal [sample_table; sample_blank; sample_duplicate]
                     ["Ontario"; "Ontario"; "Ontario"] years components).
Proof.
  apply (aggregate_data_last_wins read_decimal years components
           [sample_table] sample_blank [sample_duplicate]
           ["Ontario"] "Ontario" ["Ontario"]).
  - reflexivity.
  - reflexivity.
  - intros t' [H|[]]. injection H as <-. now exists ValueError.
Defined.

(** ** What is stored for a table *)

Lemma well_formed_iff df :
  well_formed df = true <->
  length (index df) = length (rows df)
  /\ Forall (fun r => length r = length (columns df)) (rows df).
Proof.
  unfold well_formed. now rewrite andb_true_iff, Nat.eqb_eq, forallb_Forall_length.
Qed.

Lemma select_Forall {A : Type} (P : A -> Prop) mask l :
  Forall P l -> Forall P (select mask l).
Proof.
  intros H. revert mask. induction H as [|x l Hx Hl IH]; intros [|b mask]; cbn;
    try constructor.
  destruct b; [constructor|]; auto.
Qed.

Lemma nth_Forall_default {A : Type} (P : A -> Prop) l i d :
  Forall P l -> P d -> P (nth i l d).
Proof.
  intros H Hd. revert i. induction H as [|x l Hx Hl IH]; intros [|i]; cbn; auto.
Qed.

Lemma reindex_well_formed df labels fill out :
  well_formed df = true ->
  reindex df labels fill = Ok out ->
  well_formed out = true.
Proof.
  intros Hwf. unfold reindex.
  destruct (list_eqb cell_eqb (index df) (map Str labels)).
  - now intros H; injection H as <-.
  - destruct (is_unique cell_eqb (index df)); [|discriminate].
    intros H; injection H as <-.
    apply well_formed_iff in Hwf. destruct Hwf as [Hlen Hrows].
    apply well_formed_iff. cbn [index rows columns]. split.
    + now rewrite !length_map.
    + apply Forall_forall. intros r Hr. apply in_map_iff in Hr.
      destruct Hr as [l [<- _]].
      destruct (find_index cell_eqb l (index df)) as [i|] eqn:Ei.
      * apply (find_index_some _ cell_eqb_eq) in Ei.
        assert (Hi : i < length (rows df)).
        { rewrite <- Hlen. apply nth_error_Some. congruence. }
        rewrite Forall_forall in Hrows. apply Hrows. now apply nth_In.
      * apply length_map.
Qed.

Lemma reindex_columns_well_formed df labels fill out :
  well_formed df = true ->
  reindex_columns df labels fill = Ok out ->
  well_formed out = true.
Proof.
  intros Hwf. unfold reindex_columns.
  destruct (list_eqb String.eqb (columns df) labels).
  - now intros H; injection H as <-.
  - destruct (is_unique String.eqb (columns df)); [|discriminate].
    intros H; injection H as <-.
    apply well_formed_iff in Hwf. destruct Hwf as [Hlen _].
    apply well_formed_iff. cbn [index rows columns]. split.
    + now rewrite length_map.
    + apply Forall_forall. intros r Hr. apply in_map_iff in Hr.
      destruct Hr as [r0 [<- _]]. apply length_map.
Qed.

Lemma filter_rows_well_formed df mask :
  well_formed df = true -> well_formed (filter_rows df mask) = true.
Proof.
  intros Hwf. apply well_formed_iff in Hwf. destruct Hwf as [Hlen Hrows].
  apply well_formed_iff. unfold filter_rows. cbn [index rows columns]. split.
  - now apply length_select.
  - now apply select_Forall.
Qed.

Section StoredTables.

Variable to_numeric : string -> option Z.
Variables ys cs : list string.

(** X12: the cell stored for a component and a year is the cell that the
    cleaned table holds in the row labelled exactly with the component's
    name and the column labelled exactly with the year, and 0 when the
    cleaned table has no such row or no such column. *)
Theorem stored_cell table clean_df out comp year :
  well_formed table = true ->
  clean_table to_numeric table = Ok clean_df ->
  select_table to_numeric table ys cs = Ok out ->
  In comp cs -> In year ys ->
  at_ out (Str comp) year
  = Ok match at_ clean_df (Str comp) year with
       | Ok v => v
       | Raise _ => Num 0
       end.
Proof.
  intros Hwf Hclean Hsel Hcomp Hyear.
  destruct (clean_table_closed_form to_numeric table Hwf) as [[_ E]|[_ [e E]]];
    [|congruence].
  rewrite E in Hclean. injection Hclean as <-.
  destruct (select_table_at to_numeric ys cs table out Hwf Hsel) as [_ [_ H]].
  now apply H.
Qed.

Lemma select_table_well_formed table out :
  well_formed table = true ->
  select_table to_numeric table ys cs = Ok out ->
  well_formed out = true /\ index out = map Str cs /\ columns out = ys.
Proof.
  intros Hwf Hsel.
  destruct (select_table_at to_numeric ys cs table out Hwf Hsel) as [Hi [Hc _]].
  split; [|split; assumption].
  unfold select_table in Hsel.
  destruct (clean_table_closed_form to_numeric table Hwf)
    as [[Hcl Eclean]|[_ [e Eclean]]]; rewrite Eclean in Hsel; [|discriminate].
  cbn [rbind] in Hsel.
  pose proof (cleaned_well_formed to_numeric table Hwf Hcl) as Wdf.
  destruct (reindex _ cs (Num 0)) as [mid|] eqn:E1; [|discriminate].
  cbn [rbind] in Hsel.
  apply (reindex_columns_well_formed _ _ _ _
           (reindex_well_formed _ _ _ _ (filter_rows_well_formed _ _ Wdf) E1) Hsel).
Qed.

(** X13: when the raw tables are rectangular, every table of the dictionary
    is rectangular, with the requested components as its row labels and the
    requested years as its column labels, in the order requested. *)
Theorem aggregate_data_shapes tables names :
  Forall (fun t => well_formed t = true) tables ->
  Forall (fun item : string * Frame =>
            well_formed (snd item) = true
            /\ index (snd item) = map Str cs
            /\ columns (snd item) = ys)
         (aggregate_data to_numeric tables names ys cs).
Proof.
  intros Hwf. rewrite aggregate_data_fold.
  assert (G : forall items d,
             Forall (fun item : string * Frame => well_formed (snd item) = true) items ->
             Forall (fun item : string * Frame =>
                       well_formed (snd item) = true
                       /\ index (snd item) = map Str cs
                       /\ columns (snd item) = ys) d ->
             Forall (fun item : string * Frame =>
                       well_formed (snd item) = true
                       /\ index (snd item) = map Str cs
                       /\ columns (snd item) = ys)
                    (fold_left (add_table to_numeric ys cs) items d)).
  { induction items as [|[n t] items IH]; intros d Hitems Hd; [exact Hd|].
    cbn [fold_left]. inversion Hitems as [|? ? Ht Hrest]; subst.
    apply IH; [exact Hrest|]. unfold add_table. cbn [fst snd] in *.
    destruct (select_table to_numeric t ys cs) as [f|] eqn:E; [|exact Hd].
    apply dict_set_Forall; [|exact Hd].
    intros k'. cbn [snd]. exact (select_table_well_formed t f Ht E). }
  apply G; [|constructor].
  apply Forall_forall. intros [n t] Hin. cbn [snd].
  rewrite Forall_forall in Hwf. apply Hwf. exact (in_combine_r _ _ _ _ Hin).
Qed.



End StoredTables.

Lemma stored_cell_witness :
  at_ (frame_of (select_table read_decimal sample_table years components))
      (Str "Equalization") "2016-17" = Ok (Num 100).
Proof.
  rewrite (stored_cell read_decimal years components sample_table
             (frame_of (clean_table read_decimal sample_table))
             (frame_of (select_table read_decimal sample_table years components))
             "Equalization" "2016-17" eq_refl eq_refl eq_refl).
  - reflexivity.
  - cbn. tauto.
  - cbn. tauto.
Defined.

Lemma aggregate_data_shapes_witness :
  Forall (fun item : string * Frame =>
            well_formed (snd item) = true
            /\ index (snd item) = map Str components
            /\ columns (snd item) = years)
         (aggregate_data read_decimal [sample_table; sample_blank]
                         ["Ontario"; "Quebec"] years components).
Proof.
  apply (aggregate_data_shapes read_decimal years components).
  repeat constructor.
Defined.


(** ** Queries: errors, selections, counts *)

Lemma filter_shown_nil inc (dd : dict Frame) :
  filter (shown inc) dd = [] <->
  forall prov df, In (prov, df) dd -> inc = false /\ lower prov = "aggregate".
Proof.
  split.
  - intros H prov df Hin.
    assert (Hs : shown inc (prov, df) = false).
    { destruct (shown inc (prov, df)) eqn:E; [|reflexivity].
      assert (Hf : In (prov, df) (filter (shown inc) dd))
        by (apply filter_In; auto).
      rewrite H in Hf. contradiction. }
    unfold shown in Hs. cbn [fst] in Hs. apply orb_false_iff in Hs.
    destruct Hs as [Hi Hl]. split; [exact Hi|].
    apply negb_false_iff in Hl. now apply String.eqb_eq.
  - intros H. induction dd as [|[prov df] dd IH]; [reflexivity|].
    cbn [filter]. destruct (H prov df (or_introl eq_refl)) as [-> Hl].
    unfold shown at 1. cbn [fst orb]. rewrite Hl. cbn.
    apply IH. intros p d Hin. apply (H p d). now right.
Qed.

(** X15: [update_graph] raises exactly when no jurisdiction is left to show,
    that is when every stored name is "aggregate" up to case and the
    aggregate is excluded (in particular when nothing is stored); what it
    raises is [KeyError], from [df_long["Component"]]. *)
Theorem update_graph_raises dd year sel av :
  (update_graph dd year sel av = Raise KeyError <->
   forall prov df, In (prov, df) dd ->
                   include_of av = false /\ lower prov = "aggregate")
  /\ forall e, update_graph dd year sel av = Raise e -> e = KeyError.
Proof.
  rewrite update_graph_rows, <- filter_shown_nil.
  destruct (filter (shown (include_of av)) dd) as [|item items].
  - split; [split; auto|]. now intros e H; injection H.
  - split; [split; discriminate | discriminate].
Qed.

(** X16: only the membership of the canonical components in the selection
    counts: two selections that hold the same canonical components give the
    same answer, whatever their order, their repetitions and the other
    strings they hold. *)
Theorem update_graph_selection_as_set dd year sel1 sel2 av :
  (forall comp, In comp components -> (In comp sel1 <-> In comp sel2)) ->
  update_graph dd year sel1 av = update_graph dd year sel2 av.
Proof.
  intros H. rewrite !update_graph_rows.
  destruct (filter (shown (include_of av)) dd); [reflexivity|].
  do 2 f_equal. apply filter_ext_in. intros comp Hc.
  specialize (H comp Hc).
  destruct (isin String.eqb comp sel1) eqn:E1;
    destruct (isin String.eqb comp sel2) eqn:E2; try reflexivity.
  - apply isin_str_true in E1. apply H in E1. apply isin_str_true in E1. congruence.
  - apply isin_str_true in E2. apply H in E2. apply isin_str_true in E2. congruence.
Qed.

Lemma update_graph_selection_as_set_witness :
  update_graph [("Ontario", frame_of (select_table read_decimal sample_table
                                                   years components))]
               "2016-17" ["Equalization"; "Offshore Offsets"] None
  = update_graph [("Ontario", frame_of (select_table read_decimal sample_table
                                                     years components))]
                 "2016-17"
                 ["Offshore Offsets"; "No such transfer"; "Equalization";
                  "Equalization"] None.
Proof.
  apply update_graph_selection_as_set.
  intros comp Hc. rewrite <- !isin_str_true. cbn in Hc.
  repeat (destruct Hc as [<-|Hc]; [vm_compute; tauto|]). contradiction.
Defined.

Lemma ok_inj {A : Type} (a b : A) : Ok a = Ok b -> a = b.
Proof. now intros H; injection H. Qed.

Lemma length_rows_for items comps value :
  length (rows_for items comps value) = length items * length comps.
Proof.
  unfold rows_for. induction items as [|item items IH]; [reflexivity|].
  cbn [flat_map]. rewrite length_app, length_map, IH. cbn [length]. lia.
Qed.

(** X17: an answer has one row for each jurisdiction shown and each
    canonical component of the selection. *)
Theorem update_graph_row_count dd year sel av rws :
  update_graph dd year sel av = Ok rws ->
  length rws
  = length (filter (shown (include_of av)) dd)
    * length (filter (fun comp => isin String.eqb comp sel) components).
Proof.
  rewrite update_graph_rows.
  destruct (filter (shown (include_of av)) dd) as [|item items] eqn:E;
    [discriminate|].
  intros H. rewrite <- (ok_inj _ _ H). apply length_rows_for.
Qed.

Lemma update_graph_row_count_witness :
  length (filter (shown (include_of (Some [])))
                 (aggregate_data read_decimal [sample_table; sample_blank]
                                 ["Aggregate"; "Ontario"] years components))
  * length (filter (fun comp => isin String.eqb comp
                                     ["Equalization"; "Offshore Offsets"])
                   components)
  = 2.
Proof.
  rewrite <- (update_graph_row_count
                (aggregate_data read_decimal [sample_table; sample_blank]
                                ["Aggregate"; "Ontario"] years components)
                "2016-17" ["Equalization"; "Offshore Offsets"] (Some [])
                [ mkRow "Ontario" "Equalization" NaN;
                  mkRow "Ontario" "Offshore Offsets" (Num 0) ]).
  - reflexivity.
  - vm_compute. reflexivity.
Defined.




Section StoredLookups.

Variable to_numeric : string -> option Z.
Variables ys cs : list string.

Lemma select_table_index table out :
  select_table to_numeric table ys cs = Ok out -> index out = map Str cs.
Proof.
  unfold select_table.
  destruct (clean_table to_numeric table) as [df|]; [|discriminate].
  cbn [rbind]. destruct (reindex _ cs (Num 0)) as [mid|] eqn:E1; [|discriminate].
  cbn [rbind]. intros H. apply reindex_columns_shape in H. destruct H as [-> _].
  unfold reindex in E1.
  destruct (list_eqb cell_eqb _ (map Str cs)) eqn:E.
  - injection E1 as <-. now apply (list_eqb_eq _ cell_eqb_eq) in E.
  - destruct (is_unique cell_eqb _); [|discriminate]. now injection E1 as <-.
Qed.

Lemma aggregate_data_labels tables names :
  Forall (fun item : string * Frame =>
            index (snd item) = map Str cs /\ columns (snd item) = ys)
         (aggregate_data to_numeric tables names ys cs).
Proof.
  rewrite aggregate_data_fold. generalize (combine names tables). intros items.
  assert (G : forall d,
             Forall (fun item : string * Frame =>
                       index (snd item) = map Str cs /\ columns (snd item) = ys) d ->
             Forall (fun item : string * Frame =>
                       index (snd item) = map Str cs /\ columns (snd item) = ys)
                    (fold_left (add_table to_numeric ys cs) items d)).
  { induction items as [|[n t] items IH]; intros d Hd; [exact Hd|].
    cbn [fold_left]. apply IH. unfold add_table. cbn [fst snd].
    destruct (select_table to_numeric t ys cs) as [f|] eqn:E; [|exact Hd].
    apply dict_set_Forall; [|exact Hd]. intros k'. cbn [snd]. split.
    - exact (select_table_index _ _ E).
    - exact (select_table_columns to_numeric ys cs _ _ E). }
  apply G. constructor.
Qed.

End StoredLookups.

(** X19: for a year of the canonical list, no lookup falls back to 0: every
    row built from the dictionary of [aggregate_data] carries the cell that
    the table stored under the row's province holds for the row's component
    and the year. *)
Theorem rows_carry_stored_cells (to_numeric : string -> option Z)
    tables names year inc r :
  In year years ->
  In r (build_long_dataframe
          (aggregate_data to_numeric tables names years components) year inc) ->
  In (Component r) components
  /\ exists df,
       In (Province r, df)
          (aggregate_data to_numeric tables names years components)
       /\ at_ df (Str (Component r)) year = Ok (Value r).
Proof.
  intros Hyear Hr. rewrite build_long_dataframe_rows in Hr. unfold rows_for in Hr.
  apply in_flat_map in Hr. destruct Hr as [[prov df] [Hitem Hrow]].
  apply in_map_iff in Hrow. destruct Hrow as [comp [<- Hcomp]].
  cbn [Component Province Value fst snd].
  split; [exact Hcomp|]. exists df.
  apply filter_In in Hitem. destruct Hitem as [Hitem _].
  split; [exact Hitem|].
  pose proof (aggregate_data_labels to_numeric years components tables names) as F.
  rewrite Forall_forall in F. destruct (F _ Hitem) as [Hi Hc]. cbn [snd] in Hi, Hc.
  unfold value_at, at_. rewrite Hi, Hc.
  destruct (find_index_in _ cell_eqb_eq (Str comp) (map Str components))
    as [i ->]; [now apply in_map|].
  destruct (find_index_in _ string_eqb_eq year years Hyear) as [j ->].
  reflexivity.
Qed.

Lemma rows_carry_stored_cells_witness :
  exists df,
    In ("Ontario", df)
       (aggregate_data read_decimal [sample_table] ["Ontario"] years components)
    /\ at_ df (Str "Equalization") "2016-17" = Ok (Num 100).
Proof.
  destruct (rows_carry_stored_cells read_decimal [sample_table] ["Ontario"]
              "2016-17" true (mkRow "Ontario" "Equalization" (Num 100)))
    as [_ H].
  - cbn. tauto.
  - vm_compute. tauto.
  - exact H.
Defined.

(** ** From the page to the first query *)

(** X20: [get_tables] never raises: when the page cannot be read, or holds
    no table, it returns the empty list; the dictionary built at start-up
    is then empty and every query raises [KeyError].  When the page holds
    tables, they are returned as read. *)
Theorem failed_fetch_fails_every_query
    (to_numeric : string -> option Z)
    (read_html : string -> result (list Frame)) :
  (forall t ts, read_html url = Ok (t :: ts) ->
                get_tables read_html url = t :: ts)
  /\ ((forall t ts, read_html url <> Ok (t :: ts)) ->
      get_tables read_html url = []
      /\ data_dict to_numeric (get_tables read_html url) = []
      /\ forall year sel av,
           update_graph (data_dict to_numeric (get_tables read_html url))
                        year sel av = Raise KeyError).
Proof.
  split.
  - intros t ts H. unfold get_tables. now rewrite H.
  - intros H.
    assert (E : get_tables read_html url = []).
    { unfold get_tables. destruct (read_html url) as [[|t ts]|e] eqn:R;
        try reflexivity.
      exfalso. exact (H t ts eq_refl). }
    rewrite E. repeat split.
Qed.

Lemma failed_fetch_fails_every_query_witness :
  update_graph (data_dict read_decimal (get_tables (fun _ => Raise ValueError) url))
               "2016-17" components (Some ["include"]) = Raise KeyError.
Proof.
  destruct (failed_fetch_fails_every_query read_decimal
              (fun _ => Raise ValueError)) as [_ H].
  destruct H as [_ [_ H]].
  - discriminate.
  - apply H.
Defined.

(** ** [extract_province_name] *)

Lemma prefix_app a b : prefix a (a ++ b)%string = true.
Proof.
  induction a as [|c a IH]; cbn; [now destruct b|].
  destruct (ascii_dec c c); [exact IH | contradiction].
Qed.

Lemma replace_from_skip old new a : forall rest,
  replace_from old new (String.length a) (a ++ rest)%string
  = replace_from old new 0 rest.
Proof.
  induction a as [|c a IH]; intros rest; [reflexivity|].
  cbn [String.length append replace_from]. apply IH.
Qed.

Lemma str_replace_prefix o old new rest :
  str_replace (String o old) new (String o old ++ rest)%string
  = (new ++ str_replace (String o old) new rest)%string.
Proof.
  unfold str_replace. cbn [append replace_from].
  pose proof (prefix_app (String o old) rest) as H. cbn [append] in H.
  rewrite H. cbn [String.length Nat.sub]. rewrite Nat.sub_0_r.
  now rewrite replace_from_skip.
Qed.

Lemma str_replace_absent old new s :
  contains old s = false -> str_replace old new s = s.
Proof.
  unfold str_replace. induction s as [|c s IH]; [reflexivity|].
  cbn [contains replace_from]. intros H. apply orb_false_iff in H.
  destruct H as [H1 H2]. rewrite H1. f_equal. now apply IH.
Qed.

(** X21: a title made of the prefix "Federal Support to " and a name gives
    the name with its surrounding whitespace trimmed, when the title does
    not hold "Provinces and Territories" and the name does not hold the
    prefix again. *)
Theorem extract_province_name_prefix name :
  contains "Provinces and Territories" ("Federal Support to " ++ name)%string = false ->
  contains "Federal Support to " name = false ->
  extract_province_name ("Federal Support to " ++ name)%string = strip name.
Proof.
  intros Hagg Hname. unfold extract_province_name. rewrite Hagg.
  pose proof (str_replace_prefix "F" "ederal Support to " "" name) as H.
  change (String "F" "ederal Support to ") with "Federal Support to " in H.
  rewrite H. cbn [append]. now rewrite (str_replace_absent _ _ _ Hname).
Qed.

Lemma extract_province_name_prefix_witness :
  extract_province_name "Federal Support to  Prince Edward Island "
  = "Prince Edward Island".
Proof.
  apply (extract_province_name_prefix " Prince Edward Island "); reflexivity.
Defined.

(** ** Frames and references in [aggregate_data] *)

Lemma In_values_dict_set k (l : loc) d x :
  In x (map snd (dict_set k l d)) -> x = l \/ In x (map snd d).
Proof.
  induction d as [|[k' l'] d IH]; cbn.
  - intros [H|[]]; now left.
  - destruct (String.eqb k' k); cbn.
    + intros [H|H]; [now left | right; now right].
    + intros [H|H]; [right; now left|].
      destruct (IH H) as [E|E]; [now left | right; now right].
Qed.

Lemma NoDup_values_dict_set k (l : loc) d :
  NoDup (map snd d) -> ~ In l (map snd d) -> NoDup (map snd (dict_set k l d)).
Proof.
  induction d as [|[k' l'] d IH]; cbn; intros Hnd Hl.
  - constructor; [intros [] | constructor].
  - inversion Hnd as [|? ? Hn Hd]; subst.
    destruct (String.eqb k' k); cbn.
    + constructor; [|exact Hd]. intros H. apply Hl. now right.
    + constructor.
      * intros H. apply In_values_dict_set in H. destruct H as [->|H].
        -- apply Hl. now left.
        -- contradiction.
      * apply IH; [exact Hd|]. intros H. apply Hl. now right.
Qed.

Section FreshFrames.

Variable to_numeric : string -> option Z.
Variables names ys cs : list string.

Lemma aggregate_step_st_refs i table d (h : heap) :
  exists trail d',
    aggregate_step_st to_numeric i table names ys cs d h = (h ++ trail, Ok d')
    /\ (d' = d
        \/ exists name l, d' = dict_set name l d
                          /\ length h <= l < length (h ++ trail)).
Proof.
  unfold aggregate_step_st, try_except.
  destruct (clean_table_st_spec to_numeric h table) as [t1 [r [Hrun [_ _]]]].
  unfold bind at 1. rewrite Hrun.
  destruct r as [l1|e].
  2:{ exists t1, d. split; [reflexivity | now left]. }
  set (h1 := h ++ t1). rewrite bind_load, bind_new, bind_load, deref_new.
  set (sel := filter_rows _ _).
  destruct (reindex sel cs (Num 0)) as [g|e].
  2:{ rewrite bind_lift_raise. exists (t1 ++ [sel]), d. unfold h1.
      rewrite app_assoc. split; [reflexivity | now left]. }
  rewrite bind_lift_ok, bind_new, bind_load, deref_new.
  destruct (reindex_columns g ys (Num 0)) as [g2|e].
  2:{ rewrite bind_lift_raise. exists (t1 ++ [sel; g]), d. unfold h1.
      rewrite <- !app_assoc. cbn [app]. split; [reflexivity | now left]. }
  rewrite bind_lift_ok, bind_new.
  destruct (list_getitem names i) as [name|e].
  2:{ rewrite bind_lift_raise. exists (t1 ++ [sel; g; g2]), d. unfold h1.
      rewrite <- !app_assoc. cbn [app]. split; [reflexivity | now left]. }
  rewrite bind_lift_ok. unfold ret.
  exists (t1 ++ [sel; g; g2]), (dict_set name (length ((h1 ++ [sel]) ++ [g])) d).
  unfold h1. rewrite <- !app_assoc. cbn [app]. split; [reflexivity|].
  right. exists name, (length (h ++ t1 ++ [sel; g])). split; [reflexivity|].
  rewrite !length_app. cbn [length]. lia.
Qed.

Lemma aggregate_loop_st_refs (h0 : heap) : forall tables i d (h : heap),
  length h0 <= length h ->
  Forall (fun kv : string * loc => length h0 <= snd kv < length h) d ->
  NoDup (map snd d) ->
  exists trail d',
    aggregate_loop_st to_numeric i tables names ys cs d h = (h ++ trail, Ok d')
    /\ Forall (fun kv : string * loc => length h0 <= snd kv < length (h ++ trail)) d'
    /\ NoDup (map snd d').
Proof.
  induction tables as [|t tables IH]; intros i d h Hh Hd Hnd.
  - exists [], d. rewrite app_nil_r. repeat split; assumption.
  - cbn [aggregate_loop_st].
    destruct (aggregate_step_st_refs i t d h) as [t1 [d1 [Hrun Hform]]].
    unfold bind at 1. rewrite Hrun.
    assert (Hd' : Forall (fun kv : string * loc =>
                            length h0 <= snd kv < length (h ++ t1)) d).
    { eapply Forall_impl; [|exact Hd]. intros kv Hkv. cbn beta in Hkv.
      rewrite length_app. lia. }
    assert (Inv : Forall (fun kv : string * loc =>
                            length h0 <= snd kv < length (h ++ t1)) d1
                  /\ NoDup (map snd d1)).
    { destruct Hform as [->|[name [l [-> Hl]]]]; [auto|]. split.
      - clear -Hd' Hl Hh. induction Hd' as [|[k' l'] d Hx Hd' IH]; cbn.
        + constructor; [cbn; lia | constructor].
        + destruct (String.eqb k' name).
          * constructor; [cbn; lia | exact Hd'].
          * constructor; [exact Hx | exact IH].
      - apply NoDup_values_dict_set; [exact Hnd|].
        intros Hin. apply in_map_iff in Hin. destruct Hin as [kv [E Hkv]].
        rewrite Forall_forall in Hd. specialize (Hd kv Hkv). lia. }
    destruct Inv as [I1 I2].
    destruct (IH (S i) d1 (h ++ t1)) as [t2 [d2 [Hrun2 [J1 J2]]]];
      [rewrite length_app; lia | exact I1 | exact I2 |].
    exists (t1 ++ t2), d2. rewrite app_assoc. repeat split; assumption.
Qed.

(** X22: [aggregate_data] changes no frame that existed before the call, in
    particular no raw table; every jurisdiction of the dictionary refers to a
    frame allocated by the call, and no two jurisdictions share a frame. *)
Theorem aggregate_data_st_fresh_frames (h : heap) tables :
  exists trail d,
    aggregate_data_st to_numeric tables names ys cs h = (h ++ trail, Ok d)
    /\ (forall l, l < length h -> deref (h ++ trail) l = deref h l)
    /\ Forall (fun kv : string * loc => length h <= snd kv < length (h ++ trail)) d
    /\ NoDup (map snd d).
Proof.
  unfold aggregate_data_st.
  destruct (aggregate_loop_st_refs h tables 0 [] h (Nat.le_refl _)
              (Forall_nil _) (NoDup_nil _)) as [trail [d [Hrun [H1 H2]]]].
  exists trail, d. split; [exact Hrun|]. split; [|split; assumption].
  intros l Hl. now apply deref_old.
Qed.

End FreshFrames.

(** ** The aggregate in the start-up dictionary *)

(** X23: in the dictionary built at start-up the name "Aggregate" can only
    stand for the first table of the page: when the first table is
    processed, the dictionary starts with the item "Aggregate" holding it,
    and an item "Aggregate" never holds anything else. *)
Theorem data_dict_aggregate_first (to_numeric : string -> option Z) tables :
  (forall t rest f,
      tables = t :: rest ->
      select_table to_numeric t years components = Ok f ->
      exists others, data_dict to_numeric tables = ("Aggregate", f) :: others)
  /\ (forall f,
        In ("Aggregate", f) (data_dict to_numeric tables) ->
        exists t rest, tables = t :: rest
                       /\ select_table to_numeric t years components = Ok f).
Proof.
  assert (E : data_dict to_numeric tables
              = flat_map (entry to_numeric years components)
                         (combine (map extract_province_name chart_titles) tables)).
  { unfold data_dict.
    rewrite (aggregate_data_flat _ _ _ _ _ (province_names_NoDup tables)).
    f_equal. unfold province_names. rewrite <- firstn_map, <- combine_firstn.
    apply firstn_all2. rewrite length_combine, length_map.
    unfold num_tables. cbn [chart_titles length]. lia. }
  rewrite E. split.
  - intros t rest f -> Ht. cbn [chart_titles map combine flat_map].
    unfold entry at 1. cbn [fst snd]. rewrite Ht.
    eexists. cbn [app]. f_equal.
  - intros f Hin. destruct tables as [|t rest]; [contradiction|].
    exists t, rest. split; [reflexivity|].
    cbn [chart_titles map combine flat_map] in Hin.
    apply in_app_or in Hin. destruct Hin as [Hin|Hin].
    + unfold entry in Hin. cbn [fst snd] in Hin.
      destruct (select_table to_numeric t years components) as [g|];
        [|contradiction].
      destruct Hin as [Hin|[]]. now injection Hin as ->.
    + exfalso.
      assert (Hk : In "Aggregate"
                      (keys (flat_map (entry to_numeric years components)
                               (combine (map extract_province_name (tl chart_titles))
                                        rest)))).
      { unfold keys. apply in_map_iff. exists ("Aggregate", f). split; [reflexivity|].
        exact Hin. }
      destruct (entries_keys to_numeric _ _ _ _ _ Hk) as [k [_ [_ [Hn _]]]].
      apply nth_error_In in Hn. vm_compute in Hn.
      repeat (destruct Hn as [Hn|Hn]; [discriminate|]). exact Hn.
Qed.
